(** * xgen: the C# backend of the XSD code generator

    A shallow embedding of [genCSharp.go] and of the helpers of [utils.go]
    it calls, with the properties of the generator that its specification
    states.

    Go strings are byte sequences: they are Rocq [string]s, whose characters
    are the 256 bytes.  The maps of the program ([gen.StructAST],
    [fieldNameCount], [SimpleType.MemberTypes]) are [gmap]s; Go slices are
    lists; [int] is [Z] with the wrap-around of 64-bit addition. *)

From Stdlib Require Import ZArith Ascii String List.
From stdpp Require Import base decidable option list sorting strings pretty gmap fin_maps.

Local Open Scope string_scope.
Local Open Scope Z_scope.

(** ** Go string literals and the string library *)

Module GoString.

Definition tab : ascii := ascii_of_nat 9.
Definition newline : ascii := ascii_of_nat 10.

Definition hexval (c : ascii) : option N :=
  let n := N_of_ascii c in
  if ((48 <=? n) && (n <=? 57))%N then Some (n - 48)%N
  else if ((97 <=? n) && (n <=? 102))%N then Some (n - 87)%N
  else if ((65 <=? n) && (n <=? 70))%N then Some (n - 55)%N
  else None.

(** [lit] reads the body of an interpreted Go string literal: the escapes
    backslash-t, backslash-n, a doubled backslash and backslash-x with two
    hexadecimal digits stand for one byte each.  The quotation mark, which
    Go escapes with a backslash, is written as the hexadecimal escape of
    its byte, 22, which Go reads as the same byte. *)
Fixpoint lit (s : string) : string :=
  match s with
  | "" => ""
  | String "\" (String "t" r) => String tab (lit r)
  | String "\" (String "n" r) => String newline (lit r)
  | String "\" (String "\" r) => String "\" (lit r)
  | String "\" (String "x" (String h (String l r))) =>
      match hexval h, hexval l with
      | Some a, Some b => String (ascii_of_N (16 * a + b)) (lit r)
      | _, _ => String "\" (String "x" (String h (String l (lit r))))
      end
  | String c r => String c (lit r)
  end.

(** [strings.Split(s, sep)] for a separator of one byte: the pieces of [s]
    between the occurrences of [sep]; always at least one piece. *)
Fixpoint Split (s : string) (sep : ascii) : list string :=
  match s with
  | "" => [""]
  | String c r =>
      if Ascii.eqb c sep then "" :: Split r sep
      else match Split r sep with
           | [] => [String c ""]
           | p :: ps => String c p :: ps
           end
  end.

(** [strings.Replace(s, old, new, -1)] for [old] of one byte. *)
Fixpoint ReplaceAll (s : string) (old : ascii) (new : string) : string :=
  match s with
  | "" => ""
  | String c r =>
      if Ascii.eqb c old then new +:+ ReplaceAll r old new
      else String c (ReplaceAll r old new)
  end.

(** [strings.HasSuffix]. *)
Definition HasSuffix (s suffix : string) : bool :=
  let n := String.length s in
  let k := String.length suffix in
  (k <=? n)%nat && String.eqb (substring (n - k) k s) suffix.

(** The arguments of [fmt.Sprintf] that the generator passes. *)
Inductive Arg : Type :=
| Str (s : string)
| Int (n : Z).

(** [fmt.Sprintf] for the verbs [%s] and [%d].  A verb with no operand left,
    or with an operand of the other kind, prints Go's error marker. *)
Fixpoint Sprintf (format : string) (args : list Arg) : string :=
  match format with
  | "" => ""
  | String "%" (String "s" r) =>
      match args with
      | Str s :: args' => s +:+ Sprintf r args'
      | Int n :: args' => "%!s(int=" +:+ pretty n +:+ ")" +:+ Sprintf r args'
      | [] => "%!s(MISSING)" +:+ Sprintf r []
      end
  | String "%" (String "d" r) =>
      match args with
      | Int n :: args' => pretty n +:+ Sprintf r args'
      | Str s :: args' => "%!d(string=" +:+ s +:+ ")" +:+ Sprintf r args'
      | [] => "%!d(MISSING)" +:+ Sprintf r []
      end
  | String c r => String c (Sprintf r args)
  end.

(** The bytes below 128 are the ASCII runes, one byte each in UTF-8. *)
Definition isASCIIByte (c : ascii) : bool := (N_of_ascii c <? 128)%N.

Fixpoint isASCII (s : string) : bool :=
  match s with
  | "" => true
  | String c r => isASCIIByte c && isASCII r
  end.

(** [unicode.ToUpper] on an ASCII rune. *)
Definition ToUpperASCII (c : ascii) : ascii :=
  let n := N_of_ascii c in
  if ((97 <=? n) && (n <=? 122))%N then ascii_of_N (n - 32) else c.

End GoString.

Import GoString.

(** ** The schema tree

    The constructs of the parsed schema, with the fields the backend reads.
    Each struct is a record in a module of its name; Go's field [Type] is
    [Type_].  An entry of [gen.ProtoTree] is a pointer to one of the six
    structs or nil: [option Construct]. *)

Module Attribute.
Record t : Type := mk
  { Name : string; Doc : string; Type_ : string; Plural : bool; Optional : bool }.
End Attribute.

Module Element.
Record t : Type := mk
  { Doc : string; Name : string; Type_ : string; Plural : bool; Optional : bool }.
End Element.

Module Group.
#[warnings="-register-all"]
Inductive t : Type := mk
  { Doc : string; Name : string; Elements : list Element.t; Groups : list t;
    Plural : bool; Ref : string }.
End Group.

Module AttributeGroup.
Record t : Type := mk
  { Doc : string; Name : string; Ref : string; Attributes : list Attribute.t }.
End AttributeGroup.

Module SimpleType.
Record t : Type := mk
  { Doc : string; Name : string; Base : string; List : bool; Union : bool;
    MemberTypes : gmap string string }.
End SimpleType.

Module ComplexType.
Record t : Type := mk
  { Doc : string; Name : string; Base : string;
    Elements : list Element.t; Attributes : list Attribute.t;
    Groups : list Group.t; AttributeGroup : list AttributeGroup.t }.
End ComplexType.

Inductive Construct : Type :=
| PSimpleType (v : SimpleType.t)
| PComplexType (v : ComplexType.t)
| PGroup (v : Group.t)
| PAttributeGroup (v : AttributeGroup.t)
| PElement (v : Element.t)
| PAttribute (v : Attribute.t).

(** [CodeGenerator], the receiver of the backend's methods. *)
Record CodeGenerator : Type := mkGen
  { File : string;
    Package : string;
    Field : string;
    StructAST : gmap string string;
    ProtoTree : list (option Construct) }.

Definition setStructAST (name content : string) (gen : CodeGenerator) : CodeGenerator :=
  mkGen (File gen) (Package gen) (Field gen) (<[name := content]> (StructAST gen)) (ProtoTree gen).

Definition addField (text : string) (gen : CodeGenerator) : CodeGenerator :=
  mkGen (File gen) (Package gen) (Field gen +:+ text) (StructAST gen) (ProtoTree gen).

(** Go's [int] on a 64-bit platform. *)
Definition wrap64 (n : Z) : Z := (n + 2 ^ 63) mod 2 ^ 64 - 2 ^ 63.

(** The package variable [fieldNameCount]; a key that is absent reads as 0. *)
Definition countOf (fieldNameCount : gmap string Z) (fieldName : string) : Z :=
  default 0 (fieldNameCount !! fieldName).

(** ** utils.go *)

Definition copyright : string := "// Code generated by xgen. DO NOT EDIT.".

Fixpoint getBasefromSimpleType (name : string) (XSDSchema : list (option Construct)) : string :=
  match XSDSchema with
  | [] => name
  | ele :: rest =>
      match ele with
      | Some (PSimpleType v) =>
          if negb (SimpleType.List v) && negb (SimpleType.Union v)
             && String.eqb (SimpleType.Name v) name
          then SimpleType.Base v
          else getBasefromSimpleType name rest
      | Some (PAttribute v) =>
          if String.eqb (Attribute.Name v) name then Attribute.Type_ v
          else getBasefromSimpleType name rest
      | Some (PElement v) =>
          if String.eqb (Element.Name v) name then Element.Type_ v
          else getBasefromSimpleType name rest
      | _ => getBasefromSimpleType name rest
      end
  end.

Definition trimNSPrefix (str : string) : string :=
  match Split str ":" with
  | [_; name] => name
  | _ => str
  end.

(** [strings.NewReplacer(old1, new1, old2, new2).Replace(s)] for olds of one
    byte: one pass over [s], the replacement text is not scanned again. *)
Fixpoint Replacer (old1 : ascii) (new1 : string) (old2 : ascii) (new2 : string)
    (s : string) : string :=
  match s with
  | "" => ""
  | String c r =>
      if Ascii.eqb c old1 then new1 +:+ Replacer old1 new1 old2 new2 r
      else if Ascii.eqb c old2 then new2 +:+ Replacer old1 new1 old2 new2 r
      else String c (Replacer old1 new1 old2 new2 r)
  end.

Definition genFieldComment (name doc prefix : string) : string :=
  let docReplacer := Replacer newline (Sprintf (lit "\n%s ") [Str prefix]) tab "" in
  if String.eqb doc "" then Sprintf (lit "\n%s %s ...\n") [Str prefix; Str name]
  else Sprintf (lit "\n%s %s is %s\n") [Str prefix; Str name; Str (docReplacer doc)].

Definition kvPair : Type := string * string.
Definition key (p : kvPair) : string := p.1.
Definition value (p : kvPair) : string := p.2.

(** [kvPairList.Less], on the two pairs that the indices select. *)
Definition Less (a b : kvPair) : bool :=
  String.ltb (value a) (value b)
  || (String.eqb (value a) (value b)
      && match String.compare (key a) (key b) with Gt => true | _ => false end).

(** [sort.Sort] belongs to Go's library.  It leaves the slice a permutation of
    itself in which no later entry is [Less] than an earlier one; [sortOrder]
    is that relation between an earlier and a later entry.  The sort used
    here is a merge sort on it; [sortOrder] is a total order on pairs, so
    every sorting algorithm returns the same slice
    ([sort_Sort_determined]). *)
Definition sortOrder (a b : kvPair) : Prop := Less b a = false.

#[global] Instance sortOrder_dec : RelDecision sortOrder.
Proof. intros a b. unfold sortOrder. apply _. Defined.

Definition sort_Sort (pl : list kvPair) : list kvPair := merge_sort sortOrder pl.

Section Backend.

(** [ToTitle] ranges over the runes of its argument.  On a string of ASCII
    bytes each rune is one byte.  On any other string (runes of several
    bytes, or bytes that are no UTF-8, which [WriteRune] replaces) the
    result is the work of Go's [unicode] and [utf8] packages:
    [ToTitleWide] stands for it. *)
Variable ToTitleWide : string -> string.

(** [for k, v := range toSort] visits the entries of a map in an order that
    Go leaves unspecified: [rangeMap m] is the order of one run. *)
Variable rangeMap : gmap string string -> list kvPair.

Definition ToTitle (val : string) : string :=
  if isASCII val then
    match val with
    | "" => ""
    | String rune rest => String (ToUpperASCII rune) rest
    end
  else ToTitleWide val.

Definition MakeFirstUpperCase (s : string) : string := ToTitle s.

Definition toSortedPairs (toSort : gmap string string) : list kvPair :=
  let pl := fold_left (fun pl kv => (pl ++ [(kv.1, kv.2)])%list) (rangeMap toSort) [] in
  sort_Sort pl.

(** ** genCSharp.go *)

Definition csharpBuildInType : gmap string bool :=
  list_to_map
    [("bool", true); ("byte", true); ("byte[]", true); ("DateOnly", true);
     ("DateTime", true); ("decimal", true); ("double", true); ("float", true);
     ("int", true); ("List<string>", true); ("long", true); ("object", true);
     ("short", true); ("string", true); ("TimeOnly", true); ("uint", true);
     ("ulong", true); ("ushort", true)].

Definition csharpBuildInDefaultValues : gmap string string :=
  list_to_map
    [("byte[]", "Array.Empty<byte>()"); ("List<string>", "new()");
     ("object", "new()"); ("string", lit "\x22\x22")].

Definition isBuiltInCSharpType (typeName : string) : bool :=
  bool_decide (is_Some (csharpBuildInType !! typeName)).

Definition genCSharpFieldName (name : string) (unique : bool)
    (fieldNameCount : gmap string Z) : string * gmap string Z :=
  let fieldName :=
    fold_left (fun fieldName str => fieldName +:+ MakeFirstUpperCase str) (Split name ":") "" in
  let tmp :=
    fold_left (fun tmp str => tmp +:+ MakeFirstUpperCase str) (Split fieldName ".") "" in
  let fieldName := tmp in
  let fieldName := ReplaceAll fieldName "-" "" in
  if unique then
    let fieldNameCount :=
      <[fieldName := wrap64 (countOf fieldNameCount fieldName + 1)]> fieldNameCount in
    let count := countOf fieldNameCount fieldName in
    if negb (count =? 1) then (Sprintf "%s%d" [Str fieldName; Int count], fieldNameCount)
    else (fieldName, fieldNameCount)
  else (fieldName, fieldNameCount).

Definition genCSharpFieldType (name : string) : string :=
  if bool_decide (is_Some (csharpBuildInType !! name)) then name
  else
    let fieldType :=
      fold_left (fun fieldType str => fieldType +:+ MakeFirstUpperCase str) (Split name ".") "" in
    let fieldType := MakeFirstUpperCase (ReplaceAll fieldType "-" "") in
    if negb (String.eqb fieldType "") then fieldType else "object".

Definition genCSharpClassAttributes (name : string) : string :=
  Sprintf (lit "\t[GeneratedCode(\x22xgen\x22, null)]\n\t[XmlType(\x22%s\x22)]\n") [Str name].

Definition genCSharpFieldAttributes (name : string) (isElement : bool) : string :=
  if isElement then Sprintf (lit "\t[XmlElement(\x22%s\x22)]") [Str name]
  else Sprintf (lit "\t[XmlAttribute(\x22%s\x22)]") [Str name].

Definition getCSharpDefaultValue (typeName : string) : string :=
  if HasSuffix typeName "?" then ""
  else if isBuiltInCSharpType typeName then
    match csharpBuildInDefaultValues !! typeName with
    | Some defaultValue => Sprintf " = %s;" [Str defaultValue]
    | None => ""
    end
  else " = new();".

(** [_, ok := gen.StructAST[name]]. *)
Definition cached (gen : CodeGenerator) (name : string) : bool :=
  bool_decide (is_Some (StructAST gen !! name)).

(** *** CSharpSimpleType *)

(** The body of the loop over the sorted members of a union. *)
Definition CSharpSimpleType_member (gen : CodeGenerator) (fieldNameCount : gmap string Z)
    (member : kvPair) : string :=
  let memberName := key member in
  let memberType := value member in
  let memberType :=
    if String.eqb memberType "" then getBasefromSimpleType memberName (ProtoTree gen)
    else memberType in
  let fieldType := genCSharpFieldType memberType in
  Sprintf (lit "\t\t%s public %s? %s { get; set; }\n")
    [Str (genCSharpFieldAttributes memberName true); Str fieldType;
     Str (genCSharpFieldName memberName false fieldNameCount).1].

Definition CSharpSimpleType (v : SimpleType.t) (gen : CodeGenerator)
    (fieldNameCount : gmap string Z) : CodeGenerator * gmap string Z :=
  let scalarForm :=
    if negb (cached gen (SimpleType.Name v)) then
      let fieldType :=
        genCSharpFieldType
          (getBasefromSimpleType (trimNSPrefix (SimpleType.Base v)) (ProtoTree gen)) in
      if negb (isBuiltInCSharpType fieldType) then
        let content := Sprintf (lit " : %s {};\n") [Str fieldType] in
        let gen := setStructAST (SimpleType.Name v) content gen in
        let '(fieldName, fieldNameCount) :=
          genCSharpFieldName (SimpleType.Name v) true fieldNameCount in
        (addField
           (Sprintf (lit "%s%s\tpublic partial class %s%s")
              [Str (genFieldComment fieldName (SimpleType.Doc v) (lit "\t//"));
               Str (genCSharpClassAttributes (SimpleType.Name v)); Str fieldName; Str content])
           gen,
         fieldNameCount)
      else (gen, fieldNameCount)
    else (gen, fieldNameCount) in
  let unionForm :=
    if SimpleType.Union v && (0 <? size (SimpleType.MemberTypes v))%nat then
      if negb (cached gen (SimpleType.Name v)) then
        let content := lit "\n\t{\n" in
        let content :=
          fold_left
            (fun content member =>
               content +:+ CSharpSimpleType_member gen fieldNameCount member)
            (toSortedPairs (SimpleType.MemberTypes v)) content in
        let content := content +:+ lit "\t}\n" in
        let gen := setStructAST (SimpleType.Name v) content gen in
        let '(fieldName, fieldNameCount) :=
          genCSharpFieldName (SimpleType.Name v) true fieldNameCount in
        (addField
           (Sprintf (lit "%s%s\tpublic partial class %s%s")
              [Str (genFieldComment fieldName (SimpleType.Doc v) (lit "\t//"));
               Str (genCSharpClassAttributes (SimpleType.Name v)); Str fieldName; Str content])
           gen,
         fieldNameCount)
      else (gen, fieldNameCount)
    else scalarForm in
  if SimpleType.List v then
    if negb (cached gen (SimpleType.Name v)) then
      let fieldType :=
        genCSharpFieldType
          (getBasefromSimpleType (trimNSPrefix (SimpleType.Base v)) (ProtoTree gen)) in
      let content := Sprintf (lit " : List<%s> {};\n") [Str fieldType] in
      let gen := setStructAST (SimpleType.Name v) content gen in
      let '(fieldName, fieldNameCount) :=
        genCSharpFieldName (SimpleType.Name v) true fieldNameCount in
      (addField
         (Sprintf (lit "%s%s\tpublic partial class %s%s")
            [Str (genFieldComment fieldName (SimpleType.Doc v) (lit "\t//"));
             Str (genCSharpClassAttributes (SimpleType.Name v)); Str fieldName; Str content])
         gen,
       fieldNameCount)
    else unionForm
  else unionForm.

(** *** CSharpComplexType: the bodies of its four loops *)

Definition CSharpComplexType_attrGroup (gen : CodeGenerator) (fieldNameCount : gmap string Z)
    (className : string) (attrGroup : AttributeGroup.t) : string :=
  let fieldType :=
    getBasefromSimpleType (trimNSPrefix (AttributeGroup.Ref attrGroup)) (ProtoTree gen) in
  let fieldName := (genCSharpFieldName (AttributeGroup.Name attrGroup) false fieldNameCount).1 in
  let fieldName :=
    if String.eqb fieldName className then fieldName +:+ "Value" else fieldName in
  Sprintf (lit "\t%s public %s? %s { get; set; }\n")
    [Str (genCSharpFieldAttributes (AttributeGroup.Name attrGroup) true);
     Str (genCSharpFieldType fieldType); Str fieldName].

Definition CSharpComplexType_attribute (gen : CodeGenerator) (fieldNameCount : gmap string Z)
    (attribute : Attribute.t) : string :=
  let fieldType :=
    genCSharpFieldType
      (getBasefromSimpleType (trimNSPrefix (Attribute.Type_ attribute)) (ProtoTree gen)) in
  let fieldType := if Attribute.Optional attribute then fieldType +:+ "?" else fieldType in
  let fieldName := (genCSharpFieldName (Attribute.Name attribute) false fieldNameCount).1 in
  Sprintf (lit "\t%s public %s %sAttr { get; set; }%s\n")
    [Str (genCSharpFieldAttributes (Attribute.Name attribute) false);
     Str fieldType; Str fieldName; Str (getCSharpDefaultValue fieldType)].

Definition CSharpComplexType_group (gen : CodeGenerator) (fieldNameCount : gmap string Z)
    (className : string) (group : Group.t) : string :=
  let fieldType :=
    genCSharpFieldType
      (getBasefromSimpleType (trimNSPrefix (Group.Ref group)) (ProtoTree gen)) in
  let fieldType :=
    if Group.Plural group then Sprintf "List<%s>" [Str fieldType] else fieldType in
  let fieldName := (genCSharpFieldName (Group.Name group) false fieldNameCount).1 in
  let fieldName :=
    if String.eqb fieldName className then fieldName +:+ "Value" else fieldName in
  Sprintf (lit "\tpublic %s? %s { get; set; }\n") [Str fieldType; Str fieldName].

Definition CSharpComplexType_element (gen : CodeGenerator) (fieldNameCount : gmap string Z)
    (className : string) (element : Element.t) : string :=
  let fieldType :=
    genCSharpFieldType
      (getBasefromSimpleType (trimNSPrefix (Element.Type_ element)) (ProtoTree gen)) in
  let fieldType :=
    if Element.Plural element then Sprintf "List<%s>" [Str fieldType] else fieldType in
  let fieldType := if Element.Optional element then fieldType +:+ "?" else fieldType in
  let fieldName := (genCSharpFieldName (Element.Name element) false fieldNameCount).1 in
  let fieldName :=
    if String.eqb fieldName className then fieldName +:+ "Value" else fieldName in
  Sprintf (lit "\t%s public %s %s { get; set; }%s\n")
    [Str (genCSharpFieldAttributes (Element.Name element) true);
     Str fieldType; Str fieldName; Str (getCSharpDefaultValue fieldType)].

Definition CSharpComplexType (v : ComplexType.t) (gen : CodeGenerator)
    (fieldNameCount : gmap string Z) : CodeGenerator * gmap string Z :=
  if negb (cached gen (ComplexType.Name v)) then
    let '(className, fieldNameCount) :=
      genCSharpFieldName (ComplexType.Name v) true fieldNameCount in
    let content := lit "\n\t{\n" in
    let content :=
      fold_left
        (fun content attrGroup =>
           content +:+ CSharpComplexType_attrGroup gen fieldNameCount className attrGroup)
        (ComplexType.AttributeGroup v) content in
    let content :=
      fold_left
        (fun content attribute =>
           content +:+ CSharpComplexType_attribute gen fieldNameCount attribute)
        (ComplexType.Attributes v) content in
    let content :=
      fold_left
        (fun content group =>
           content +:+ CSharpComplexType_group gen fieldNameCount className group)
        (ComplexType.Groups v) content in
    let content :=
      fold_left
        (fun content element =>
           content +:+ CSharpComplexType_element gen fieldNameCount className element)
        (ComplexType.Elements v) content in
    let content :=
      if (0 <? String.length (ComplexType.Base v))%nat
         && isBuiltInCSharpType (ComplexType.Base v)
      then
        let fieldType :=
          genCSharpFieldType
            (getBasefromSimpleType (trimNSPrefix (ComplexType.Base v)) (ProtoTree gen)) in
        content +:+
        Sprintf (lit "\t\t[XmlText(typeof(%s))] public %s? Value { get; set; }\n")
          [Str fieldType; Str fieldType]
      else content in
    let content := content +:+ lit "\t}\n" in
    let gen := setStructAST (ComplexType.Name v) content gen in
    let inheritance := "" in
    let inheritance :=
      if (0 <? String.length (ComplexType.Base v))%nat
         && negb (isBuiltInCSharpType (ComplexType.Base v))
      then
        let fieldType :=
          genCSharpFieldType
            (getBasefromSimpleType (trimNSPrefix (ComplexType.Base v)) (ProtoTree gen)) in
        Sprintf " : %s " [Str fieldType]
      else inheritance in
    (addField
       (Sprintf (lit "%s%s\tpublic partial class %s%s%s")
          [Str (genFieldComment className (ComplexType.Doc v) (lit "\t//"));
           Str (genCSharpClassAttributes (ComplexType.Name v)); Str className;
           Str inheritance;
           Str (default "" (StructAST gen !! ComplexType.Name v))])
       gen,
     fieldNameCount)
  else (gen, fieldNameCount).

(** *** CSharpGroup *)

Definition CSharpGroup_element (gen : CodeGenerator) (fieldNameCount : gmap string Z)
    (element : Element.t) : string :=
  let fieldType :=
    genCSharpFieldType
      (getBasefromSimpleType (trimNSPrefix (Element.Type_ element)) (ProtoTree gen)) in
  let fieldType :=
    if Element.Plural element then Sprintf "List<%s>" [Str fieldType] else fieldType in
  let fieldType := if Element.Optional element then fieldType +:+ "?" else fieldType in
  Sprintf (lit "\t\t%s public %s %s { get; set; }%s\n")
    [Str (genCSharpFieldAttributes (Element.Name element) true); Str fieldType;
     Str (genCSharpFieldName (Element.Name element) false fieldNameCount).1;
     Str (getCSharpDefaultValue fieldType)].

Definition CSharpGroup_group (gen : CodeGenerator) (fieldNameCount : gmap string Z)
    (group : Group.t) : string :=
  let fieldType :=
    genCSharpFieldType
      (getBasefromSimpleType (trimNSPrefix (Group.Ref group)) (ProtoTree gen)) in
  let fieldType :=
    if Group.Plural group then Sprintf "List<%s>" [Str fieldType] else fieldType in
  Sprintf (lit "\t\t%s public %s? %s { get; set; }\n")
    [Str (genCSharpFieldAttributes (Group.Name group) true); Str fieldType;
     Str (genCSharpFieldName (Group.Name group) false fieldNameCount).1].

Definition CSharpGroup (v : Group.t) (gen : CodeGenerator)
    (fieldNameCount : gmap string Z) : CodeGenerator * gmap string Z :=
  if negb (cached gen (Group.Name v)) then
    let content := lit "\n\t{\n" in
    let content :=
      fold_left
        (fun content element => content +:+ CSharpGroup_element gen fieldNameCount element)
        (Group.Elements v) content in
    let content :=
      fold_left
        (fun content group => content +:+ CSharpGroup_group gen fieldNameCount group)
        (Group.Groups v) content in
    let content := content +:+ lit "\t}\n" in
    let gen := setStructAST (Group.Name v) content gen in
    let '(fieldName, fieldNameCount) :=
      genCSharpFieldName (Group.Name v) true fieldNameCount in
    (addField
       (Sprintf (lit "%s%s\tpublic partial class %s%s")
          [Str (genFieldComment fieldName (Group.Doc v) (lit "\t//"));
           Str (genCSharpClassAttributes (Group.Name v)); Str fieldName;
           Str (default "" (StructAST gen !! Group.Name v))])
       gen,
     fieldNameCount)
  else (gen, fieldNameCount).

(** *** CSharpAttributeGroup *)

Definition CSharpAttributeGroup_attribute (gen : CodeGenerator)
    (fieldNameCount : gmap string Z) (attribute : Attribute.t) : string :=
  let fieldType :=
    genCSharpFieldType
      (getBasefromSimpleType (trimNSPrefix (Attribute.Type_ attribute)) (ProtoTree gen)) in
  let fieldType := if Attribute.Optional attribute then fieldType +:+ "?" else fieldType in
  let fieldName := (genCSharpFieldName (Attribute.Name attribute) false fieldNameCount).1 in
  Sprintf (lit "\t\t%s public %s %sAttr { get; set; }%s\n")
    [Str (genCSharpFieldAttributes (Attribute.Name attribute) false);
     Str fieldType; Str fieldName; Str (getCSharpDefaultValue fieldType)].

Definition CSharpAttributeGroup (v : AttributeGroup.t) (gen : CodeGenerator)
    (fieldNameCount : gmap string Z) : CodeGenerator * gmap string Z :=
  if negb (cached gen (AttributeGroup.Name v)) then
    let '(className, fieldNameCount) :=
      genCSharpFieldName (AttributeGroup.Name v) true fieldNameCount in
    let content := lit "\n\t{\n" in
    let content :=
      fold_left
        (fun content attribute =>
           content +:+ CSharpAttributeGroup_attribute gen fieldNameCount attribute)
        (AttributeGroup.Attributes v) content in
    let content := content +:+ lit "\t}\n" in
    let gen := setStructAST (AttributeGroup.Name v) content gen in
    (addField
       (Sprintf (lit "%s%s\tpublic partial class %s%s")
          [Str (genFieldComment className (AttributeGroup.Doc v) (lit "\t//"));
           Str (genCSharpClassAttributes (AttributeGroup.Name v)); Str className;
           Str (default "" (StructAST gen !! AttributeGroup.Name v))])
       gen,
     fieldNameCount)
  else (gen, fieldNameCount).

(** *** CSharpElement and CSharpAttribute *)

Definition CSharpElement (v : Element.t) (gen : CodeGenerator)
    (fieldNameCount : gmap string Z) : CodeGenerator * gmap string Z :=
  if negb (cached gen (Element.Name v)) then
    let fieldType :=
      genCSharpFieldType
        (getBasefromSimpleType (trimNSPrefix (Element.Type_ v)) (ProtoTree gen)) in
    if negb (isBuiltInCSharpType fieldType) then
      let fieldType :=
        if Element.Plural v then Sprintf "List<%s>" [Str fieldType] else fieldType in
      let content := Sprintf (lit " : %s {};\n") [Str fieldType] in
      let gen := setStructAST (Element.Name v) content gen in
      let '(fieldName, fieldNameCount) :=
        genCSharpFieldName (Element.Name v) true fieldNameCount in
      (addField
         (Sprintf (lit "%s%s\tpublic partial class %s%s")
            [Str (genFieldComment fieldName (Element.Doc v) (lit "\t//"));
             Str (genCSharpClassAttributes (Element.Name v)); Str fieldName; Str content])
         gen,
       fieldNameCount)
    else (gen, fieldNameCount)
  else (gen, fieldNameCount).

Definition CSharpAttribute (v : Attribute.t) (gen : CodeGenerator)
    (fieldNameCount : gmap string Z) : CodeGenerator * gmap string Z :=
  if negb (cached gen (Attribute.Name v)) then
    let fieldType :=
      genCSharpFieldType
        (getBasefromSimpleType (trimNSPrefix (Attribute.Type_ v)) (ProtoTree gen)) in
    if negb (isBuiltInCSharpType fieldType) then
      let fieldType :=
        if Attribute.Plural v then Sprintf "List<%s>" [Str fieldType] else fieldType in
      let content := Sprintf (lit " : %s {};\n") [Str fieldType] in
      let gen := setStructAST (Attribute.Name v) content gen in
      let '(fieldName, fieldNameCount) :=
        genCSharpFieldName (Attribute.Name v) true fieldNameCount in
      (addField
         (Sprintf (lit "%s%s\tpublic partial class %s%s")
            [Str (genFieldComment fieldName (Attribute.Doc v) (lit "\t//"));
             Str (genCSharpClassAttributes (Attribute.Name v)); Str fieldName; Str content])
         gen,
       fieldNameCount)
    else (gen, fieldNameCount)
  else (gen, fieldNameCount).

(** *** GenCSharp *)

(** [callFuncByName(gen, "CSharp" + <name of the struct>, ele)]: each of the
    six structs has its method. *)
Definition callFuncByName (ele : Construct) (gen : CodeGenerator)
    (fieldNameCount : gmap string Z) : CodeGenerator * gmap string Z :=
  match ele with
  | PSimpleType v => CSharpSimpleType v gen fieldNameCount
  | PComplexType v => CSharpComplexType v gen fieldNameCount
  | PGroup v => CSharpGroup v gen fieldNameCount
  | PAttributeGroup v => CSharpAttributeGroup v gen fieldNameCount
  | PElement v => CSharpElement v gen fieldNameCount
  | PAttribute v => CSharpAttribute v gen fieldNameCount
  end.

(** The loop of [GenCSharp] over [gen.ProtoTree]. *)
Definition walk (tree : list (option Construct)) (gen : CodeGenerator)
    (fieldNameCount : gmap string Z) : CodeGenerator * gmap string Z :=
  fold_left
    (fun st ele =>
       match ele with
       | None => st
       | Some ele => callFuncByName ele st.1 st.2
       end)
    tree (gen, fieldNameCount).

(** The file system, as [GenCSharp] meets it: whether [os.Create] and
    [f.Write] fail ([Some] of the error) or succeed ([None]). *)
Record OS : Type := mkOS
  { os_Create : string -> option string;
    File_Write : string -> string -> option string }.

(** What a run does to the file system, in order. *)
Inductive IOEvent : Type :=
| Create (name : string)
| Write (name data : string)
| Close (name : string).

(** The state a run leaves behind, the operations on the file system it
    made, and the error it returns ([None] is [nil]). *)
Record Outcome : Type := mkOutcome
  { out_gen : CodeGenerator;
    out_fieldNameCount : gmap string Z;
    out_trace : list IOEvent;
    out_err : option string }.

Definition using_ : string :=
  lit "using System.CodeDom.Compiler;\nusing System.Xml.Serialization;\n".

(** The argument [fieldNameCount] is the package variable as the run finds
    it. *)
Definition GenCSharp (os : OS) (gen : CodeGenerator) (fieldNameCount : gmap string Z)
    : Outcome :=
  let fieldNameCount : gmap string Z := ∅ in
  let '(gen, fieldNameCount) := walk (ProtoTree gen) gen fieldNameCount in
  let f := File gen +:+ ".cs" in
  let err := os_Create os f in
  match err with
  | Some _ => mkOutcome gen fieldNameCount [Create f] err
  | None =>
      let ns := Package gen in
      let ns := if String.eqb ns "" then "schema" else ns in
      let data :=
        Sprintf (lit "%s\n\n%s\nnamespace %s\n{%s}\n")
          [Str copyright; Str using_; Str ns; Str (Field gen)] in
      let _ := File_Write os f data in
      mkOutcome gen fieldNameCount [Create f; Write f data; Close f] err
  end.

End Backend.

(** ** utils.go: the helpers that the backend does not call *)

Definition getNSPrefix (str : string) : string :=
  match Split str ":" with
  | [ns; _] => ns
  | _ => ""
  end.

(** The rows of [BuildInTypes], in the order of the source: for each
    built-in type of XSD its type in Go, TypeScript, C, Java, Rust and C#. *)
Definition BuildInTypes_rows : list (string * list string) :=
  [("anyType", ["string"; "string"; "char"; "String"; "String"; "string"]);
   ("ENTITIES", ["[]string"; "Array<string>"; "char[]"; "List<String>"; "Vec<String>"; "List<string>"]);
   ("ENTITY", ["string"; "string"; "char"; "String"; "String"; "string"]);
   ("ID", ["string"; "string"; "char"; "String"; "String"; "string"]);
   ("IDREF", ["string"; "string"; "char"; "String"; "String"; "string"]);
   ("IDREFS", ["[]string"; "Array<string>"; "char[]"; "List<String>"; "Vec<String>"; "List<string>"]);
   ("NCName", ["string"; "string"; "char"; "String"; "String"; "string"]);
   ("NMTOKEN", ["string"; "string"; "char"; "String"; "String"; "string"]);
   ("NMTOKENS", ["[]string"; "Array<string>"; "char[]"; "List<String>"; "Vec<String>"; "List<string>"]);
   ("NOTATION", ["[]string"; "Array<string>"; "char[]"; "List<String>"; "Vec<String>"; "List<string>"]);
   ("Name", ["string"; "string"; "char"; "String"; "String"; "string"]);
   ("QName", ["xml.Name"; "any"; "char"; "String"; "String"; "string"]);
   ("anyURI", ["string"; "string"; "char"; "QName"; "String"; "string"]);
   ("base64Binary", ["[]byte"; "Uint8Array"; "char[]"; "List<Byte>"; "String"; "byte[]"]);
   ("boolean", ["bool"; "boolean"; "bool"; "Boolean"; "bool"; "bool"]);
   ("byte", ["byte"; "any"; "char[]"; "Byte"; "u8"; "byte"]);
   ("date", ["string"; "string"; "char"; "String"; "u8"; "DateOnly"]);
   ("dateTime", ["string"; "string"; "char"; "String"; "u8"; "DateTime"]);
   ("decimal", ["float64"; "number"; "float"; "Float"; "f64"; "decimal"]);
   ("double", ["float64"; "number"; "float"; "Float"; "f64"; "double"]);
   ("duration", ["string"; "string"; "char"; "String"; "String"; "string"]);
   ("float", ["float32"; "number"; "float"; "Float"; "f64"; "float"]);
   ("gDay", ["string"; "string"; "char"; "String"; "String"; "string"]);
   ("gMonth", ["string"; "string"; "char"; "String"; "String"; "string"]);
   ("gMonthDay", ["string"; "string"; "char"; "String"; "String"; "string"]);
   ("gYear", ["string"; "string"; "char"; "String"; "String"; "string"]);
   ("gYearMonth", ["string"; "string"; "char"; "String"; "String"; "string"]);
   ("hexBinary", ["[]byte"; "Uint8Array"; "char[]"; "List<Byte>"; "String"; "byte[]"]);
   ("int", ["int"; "number"; "int"; "Integer"; "i32"; "int"]);
   ("integer", ["int"; "number"; "int"; "Integer"; "i32"; "int"]);
   ("language", ["string"; "string"; "char"; "String"; "String"; "string"]);
   ("long", ["int64"; "number"; "int"; "Long"; "i64"; "long"]);
   ("negativeInteger", ["int"; "number"; "int"; "Integer"; "i32"; "int"]);
   ("nonNegativeInteger", ["int"; "number"; "int"; "Integer"; "u32"; "uint"]);
   ("normalizedString", ["string"; "string"; "char"; "String"; "String"; "string"]);
   ("nonPositiveInteger", ["int"; "number"; "int"; "Integer"; "i32"; "int"]);
   ("positiveInteger", ["int"; "number"; "int"; "Integer"; "u32"; "uint"]);
   ("short", ["int16"; "number"; "int"; "Integer"; "i16"; "short"]);
   ("string", ["string"; "string"; "char"; "String"; "String"; "string"]);
   ("time", ["time.Time"; "string"; "char"; "String"; "String"; "TimeOnly"]);
   ("token", ["string"; "string"; "char"; "String"; "String"; "string"]);
   ("unsignedByte", ["byte"; "any"; "char"; "Byte"; "u8"; "byte"]);
   ("unsignedInt", ["uint32"; "number"; "unsigned int"; "Integer"; "u32"; "uint"]);
   ("unsignedLong", ["uint64"; "number"; "unsigned int"; "Long"; "u64"; "ulong"]);
   ("unsignedShort", ["uint16"; "number"; "unsigned int"; "Short"; "u16"; "ushort"]);
   ("xml:lang", ["string"; "string"; "char"; "String"; "String"; "string"]);
   ("xml:space", ["string"; "string"; "char"; "String"; "String"; "string"]);
   ("xml:base", ["string"; "string"; "char"; "String"; "String"; "string"]);
   ("xml:id", ["string"; "string"; "char"; "String"; "String"; "string"])].

Definition BuildInTypes : gmap string (list string) := list_to_map BuildInTypes_rows.

Definition supportLang : gmap string Z :=
  list_to_map
    [("Go", 0); ("TypeScript", 1); ("C", 2); ("Java", 3); ("Rust", 4); ("CSharp", 5)].

(** [getBuildInTypeByLang] returns [buildType] and [ok].  Indexing a slice
    out of its range stops a Go program with a run-time panic: [None] here. *)
Definition getBuildInTypeByLang (value lang : string) : option (string * bool) :=
  match BuildInTypes !! value with
  | None => Some ("", false)
  | Some buildInTypes =>
      let i := default 0 (supportLang !! lang) in
      if (0 <=? i) && (i <? Z.of_nat (length buildInTypes)) then
        match buildInTypes !! Z.to_nat i with
        | Some buildType => Some (buildType, true)
        | None => None
        end
      else None
  end.

(** *** ToSnakeCase

    The two regular expressions of [ToSnakeCase] match a fixed number of
    ASCII characters, so [ReplaceAllString] is one pass from the left: where
    the expression matches, the match is replaced and the pass goes on after
    it; elsewhere one byte is copied.  A byte of a rune of several bytes is
    no ASCII character and is copied. *)

Definition isUpperASCII (c : ascii) : bool :=
  let n := N_of_ascii c in ((65 <=? n) && (n <=? 90))%N.

Definition isLowerASCII (c : ascii) : bool :=
  let n := N_of_ascii c in ((97 <=? n) && (n <=? 122))%N.

Definition isDigitASCII (c : ascii) : bool :=
  let n := N_of_ascii c in ((48 <=? n) && (n <=? 57))%N.

(** [matchFirstCap.ReplaceAllString(s, "${1}_${2}")], with [matchFirstCap]
    the expression [([A-Z])([A-Z][a-z])]. *)
Fixpoint matchFirstCap_ReplaceAllString (s : string) : string :=
  match s with
  | "" => ""
  | String a t =>
      match t with
      | String b (String c r) =>
          if isUpperASCII a && isUpperASCII b && isLowerASCII c
          then String a (String "_" (String b (String c (matchFirstCap_ReplaceAllString r))))
          else String a (matchFirstCap_ReplaceAllString t)
      | _ => String a (matchFirstCap_ReplaceAllString t)
      end
  end.

(** [matchAllCap.ReplaceAllString(s, "${1}_${2}")], with [matchAllCap] the
    expression [([a-z0-9])([A-Z])]. *)
Fixpoint matchAllCap_ReplaceAllString (s : string) : string :=
  match s with
  | "" => ""
  | String a t =>
      match t with
      | String b r =>
          if (isLowerASCII a || isDigitASCII a) && isUpperASCII b
          then String a (String "_" (String b (matchAllCap_ReplaceAllString r)))
          else String a (matchAllCap_ReplaceAllString t)
      | "" => String a (matchAllCap_ReplaceAllString t)
      end
  end.

(** [unicode.ToLower] on an ASCII rune. *)
Definition ToLowerASCII (c : ascii) : ascii :=
  if isUpperASCII c then ascii_of_N (N_of_ascii c + 32) else c.

Fixpoint mapASCII (f : ascii -> ascii) (s : string) : string :=
  match s with
  | "" => ""
  | String c r => String (f c) (mapASCII f r)
  end.

Section SnakeCase.

(** [strings.ToLower] on a string that is not all ASCII is the work of Go's
    [unicode] package: [ToLowerWide] stands for it. *)
Variable ToLowerWide : string -> string.

Definition strings_ToLower (s : string) : string :=
  if isASCII s then mapASCII ToLowerASCII s else ToLowerWide s.

Definition ToSnakeCase (input : string) : string :=
  let output := matchFirstCap_ReplaceAllString input in
  let output := matchAllCap_ReplaceAllString output in
  let output := ReplaceAll output "-" "_" in
  strings_ToLower output.

End SnakeCase.

(** ** Notions used to state the properties *)

(** One step of the walk. *)
Definition step (T : string -> string) (rangeMap : gmap string string -> list kvPair)
    (st : CodeGenerator * gmap string Z) (ele : option Construct)
    : CodeGenerator * gmap string Z :=
  match ele with
  | None => st
  | Some ele => callFuncByName T rangeMap ele st.1 st.2
  end.


(** The concatenation of the pieces of text that a loop adds, in order. *)
Definition flatten (pieces : list string) : string := foldr String.append "" pieces.

(** The name under which a construct of the tree is declared. *)
Definition constructName (c : Construct) : string :=
  match c with
  | PSimpleType v => SimpleType.Name v
  | PComplexType v => ComplexType.Name v
  | PGroup v => Group.Name v
  | PAttributeGroup v => AttributeGroup.Name v
  | PElement v => Element.Name v
  | PAttribute v => Attribute.Name v
  end.

(** The identifier that [genCSharpFieldName] makes of a name when it is not
    asked for a unique one. *)
Definition normalized (ToTitleWide : string -> string) (name : string) : string :=
  (genCSharpFieldName ToTitleWide name false ∅).1.

(** The type that a reference resolves to: one step through the tree, then
    the form of a C# type name. *)
Definition resolved (ToTitleWide : string -> string) (gen : CodeGenerator) (ref : string)
    : string :=
  genCSharpFieldType ToTitleWide (getBasefromSimpleType (trimNSPrefix ref) (ProtoTree gen)).

(** An order of iteration over the maps: each entry of a map once. *)
Definition lawful (rangeMap : gmap string string -> list kvPair) : Prop :=
  forall m, rangeMap m ≡ₚ map_to_list m.

(** What [CSharpComplexType] puts after the fields of a class for its base:
    the text-content field, when the base is a built-in type of C#. *)
Definition textContentField (T : string -> string) (gen : CodeGenerator) (v : ComplexType.t)
    : string :=
  if (0 <? String.length (ComplexType.Base v))%nat && isBuiltInCSharpType (ComplexType.Base v)
  then lit "\t\t[XmlText(typeof(" +:+ resolved T gen (ComplexType.Base v) +:+ "))] public "
       +:+ resolved T gen (ComplexType.Base v) +:+ lit "? Value { get; set; }\n"
  else "".

(** The inheritance clause of a class, when its base is no built-in type. *)
Definition inheritanceClause (T : string -> string) (gen : CodeGenerator) (v : ComplexType.t)
    : string :=
  if (0 <? String.length (ComplexType.Base v))%nat
     && negb (isBuiltInCSharpType (ComplexType.Base v))
  then " : " +:+ resolved T gen (ComplexType.Base v) +:+ " "
  else "".

(** A construct is settled in a generator when its handler has nothing left
    to do there: its name is in the cache, or the handler does nothing on any
    generator with that tree. *)
Definition settled (T : string -> string) (rangeMap : gmap string string -> list kvPair)
    (ele : Construct) (gen : CodeGenerator) : Prop :=
  cached gen (constructName ele) = true
  \/ forall gen2 c2, ProtoTree gen2 = ProtoTree gen ->
       callFuncByName T rangeMap ele gen2 c2 = (gen2, c2).

(** The constructs for which the backend emits nothing: a SimpleType that
    takes the scalar form and a top-level Element or Attribute, when the type
    they resolve to is a built-in type of C#. *)
Definition passThrough (T : string -> string) (gen : CodeGenerator) (ele : Construct) : bool :=
  match ele with
  | PSimpleType v =>
      negb (SimpleType.List v)
      && negb (SimpleType.Union v && (0 <? size (SimpleType.MemberTypes v))%nat)
      && isBuiltInCSharpType (resolved T gen (SimpleType.Base v))
  | PElement v => isBuiltInCSharpType (resolved T gen (Element.Type_ v))
  | PAttribute v => isBuiltInCSharpType (resolved T gen (Attribute.Type_ v))
  | _ => false
  end.

(** The identifiers that [n] requests in a row for a unique identifier of
    one name receive. *)
Fixpoint requests (T : string -> string) (name : string) (n : nat)
    (fieldNameCount : gmap string Z) : list string :=
  match n with
  | O => []
  | S n' =>
      let '(fieldName, fieldNameCount) := genCSharpFieldName T name true fieldNameCount in
      fieldName :: requests T name n' fieldNameCount
  end.

(** The number of occurrences of a byte in a string. *)
Fixpoint countByte (c : ascii) (s : string) : nat :=
  match s with
  | "" => O
  | String x r => ((if Ascii.eqb x c then 1 else 0) + countByte c r)%nat
  end.

(** What an entry of the tree gives for a name in [getBasefromSimpleType]:
    the case of the type switch that returns, if there is one. *)
Definition underlying (name : string) (ele : option Construct) : option string :=
  match ele with
  | Some (PSimpleType v) =>
      if negb (SimpleType.List v) && negb (SimpleType.Union v)
         && String.eqb (SimpleType.Name v) name
      then Some (SimpleType.Base v) else None
  | Some (PAttribute v) =>
      if String.eqb (Attribute.Name v) name then Some (Attribute.Type_ v) else None
  | Some (PElement v) =>
      if String.eqb (Element.Name v) name then Some (Element.Type_ v) else None
  | _ => None
  end.

(** Every byte of the string passes the test. *)
Fixpoint allBytes (P : ascii -> bool) (s : string) : bool :=
  match s with
  | "" => true
  | String x r => P x && allBytes P r
  end.

(** The byte is not [c]. *)
Definition isNot (c : ascii) (x : ascii) : bool := negb (Ascii.eqb x c).

(** The byte is no capital letter of ASCII. *)
Definition notUpper (x : ascii) : bool := negb (isUpperASCII x).

(** [strings.Join], used to state what [genFieldComment] makes of the lines
    of a documentation text. *)
Fixpoint Join (elems : list string) (sep : string) : string :=
  match elems with
  | [] => ""
  | [x] => x
  | x :: rest => x +:+ sep +:+ Join rest sep
  end.

(** ** Strings *)

Lemma append_cons (x : ascii) (a b : string) : String x a +:+ b = String x (a +:+ b).
Proof. reflexivity. Qed.

Lemma append_assoc (a b c : string) : (a +:+ b) +:+ c = a +:+ (b +:+ c).
Proof.
  induction a as [|x a IH]; [reflexivity|].
  rewrite !append_cons. now rewrite IH.
Qed.

Lemma append_nil_r (a : string) : a +:+ "" = a.
Proof.
  induction a as [|x a IH]; [reflexivity|].
  rewrite append_cons. now rewrite IH.
Qed.

Lemma length_append (a b : string) :
  String.length (a +:+ b) = (String.length a + String.length b)%nat.
Proof.
  induction a as [|x a IH]; [reflexivity|].
  rewrite append_cons. simpl. now rewrite IH.
Qed.

Lemma append_neq_self (a b : string) : b <> "" -> a +:+ b <> a.
Proof.
  intros Hb Heq. apply (f_equal String.length) in Heq.
  rewrite length_append in Heq. destruct b; [congruence | simpl in Heq; lia].
Qed.

Lemma fold_left_append {A : Type} (f : A -> string) (l : list A) (init : string) :
  fold_left (fun content x => content +:+ f x) l init = init +:+ flatten (map f l).
Proof.
  revert init. induction l as [|x l IH]; intros init; simpl.
  - now rewrite append_nil_r.
  - rewrite IH. apply append_assoc.
Qed.

(** ** Resolution of type references *)

Lemma getBasefromSimpleType_no_match (name : string) (tree : list (option Construct)) :
  (forall c, Some c ∈ tree -> constructName c <> name) ->
  getBasefromSimpleType name tree = name.
Proof.
  induction tree as [|ele rest IH]; intros Hno; simpl; [reflexivity|].
  assert (Hrest : getBasefromSimpleType name rest = name).
  { apply IH. intros c Hc. apply Hno. now apply list_elem_of_further. }
  destruct ele as [c|]; [|exact Hrest].
  assert (Hc : constructName c <> name) by (apply Hno; apply list_elem_of_here).
  apply String.eqb_neq in Hc.
  destruct c as [v|v|v|v|v|v]; simpl in Hc; rewrite ?Hc, ?andb_false_r; exact Hrest.
Qed.

Lemma getBasefromSimpleType_result (name : string) (tree : list (option Construct)) :
  getBasefromSimpleType name tree = name
  \/ exists c, Some c ∈ tree /\ constructName c = name
       /\ match c with
          | PSimpleType v => getBasefromSimpleType name tree = SimpleType.Base v
          | PAttribute v => getBasefromSimpleType name tree = Attribute.Type_ v
          | PElement v => getBasefromSimpleType name tree = Element.Type_ v
          | _ => False
          end.
Proof.
  induction tree as [|ele rest IH]; simpl; [now left|].
  assert (Hrest : getBasefromSimpleType name rest = name
        \/ exists c, Some c ∈ ele :: rest /\ constructName c = name
             /\ match c with
                | PSimpleType v => getBasefromSimpleType name rest = SimpleType.Base v
                | PAttribute v => getBasefromSimpleType name rest = Attribute.Type_ v
                | PElement v => getBasefromSimpleType name rest = Element.Type_ v
                | _ => False
                end).
  { destruct IH as [IH|(c & Hin & Hn & Hc)]; [now left|right].
    exists c. split; [now apply list_elem_of_further | now split]. }
  destruct ele as [c|]; [|exact Hrest].
  destruct c as [v|v|v|v|v|v]; try exact Hrest.
  - destruct (negb (SimpleType.List v) && negb (SimpleType.Union v)
              && String.eqb (SimpleType.Name v) name) eqn:E; [|exact Hrest].
    right. exists (PSimpleType v). apply andb_prop in E as [_ E].
    apply String.eqb_eq in E. split; [apply list_elem_of_here | now split].
  - destruct (String.eqb (Element.Name v) name) eqn:E; [|exact Hrest].
    right. exists (PElement v). apply String.eqb_eq in E.
    split; [apply list_elem_of_here | now split].
  - destruct (String.eqb (Attribute.Name v) name) eqn:E; [|exact Hrest].
    right. exists (PAttribute v). apply String.eqb_eq in E.
    split; [apply list_elem_of_here | now split].
Qed.

(** C8. A reference that is the name of no construct of the tree resolves to
    itself: [getBasefromSimpleType] returns it unchanged.  The function is
    defined on every name and every tree, nil entries included, and has no
    error result. *)
Theorem C8_unresolved_reference_passes_through :
  forall (name : string) (tree : list (option Construct)),
    (forall c, Some c ∈ tree -> constructName c <> name) ->
    getBasefromSimpleType name tree = name.
Proof. exact getBasefromSimpleType_no_match. Qed.

Lemma C8_witness :
  getBasefromSimpleType "tns:orderId"
    [Some (PElement (Element.mk "" "order" "orderType" false false)); None;
     Some (PSimpleType (SimpleType.mk "" "zipCode" "string" false false ∅))]
  = "tns:orderId".
Proof.
  apply C8_unresolved_reference_passes_through.
  intros c Hc.
  repeat (apply elem_of_cons in Hc as [Hc|Hc]; [inversion Hc; subst; discriminate|]).
  inversion Hc.
Defined.

(** ** Field names and field lines *)

Lemma genCSharpFieldName_not_unique (T : string -> string) (name : string)
    (fieldNameCount : gmap string Z) :
  genCSharpFieldName T name false fieldNameCount = (normalized T name, fieldNameCount).
Proof. reflexivity. Qed.

Lemma HasSuffix_question (s : string) : HasSuffix (s +:+ "?") "?" = true.
Proof.
  unfold HasSuffix. rewrite length_append. simpl String.length.
  replace (String.length s + 1 - 1)%nat with (String.length s) by lia.
  replace (1 <=? String.length s + 1)%nat with true by (symmetry; apply Nat.leb_le; lia).
  simpl. apply String.eqb_eq.
  induction s as [|x s IH]; [reflexivity|].
  rewrite append_cons. simpl. exact IH.
Qed.

Lemma getCSharpDefaultValue_nullable (s : string) : getCSharpDefaultValue (s +:+ "?") = "".
Proof. unfold getCSharpDefaultValue. now rewrite HasSuffix_question. Qed.

Lemma CSharpComplexType_element_line (T : string -> string) (gen : CodeGenerator)
    (c : gmap string Z) (className : string) (e : Element.t) :
  CSharpComplexType_element T gen c className e =
  let fieldType :=
    (if Element.Plural e then "List<" +:+ resolved T gen (Element.Type_ e) +:+ ">"
     else resolved T gen (Element.Type_ e))
    +:+ (if Element.Optional e then "?" else "") in
  let fieldName :=
    if String.eqb (normalized T (Element.Name e)) className
    then normalized T (Element.Name e) +:+ "Value" else normalized T (Element.Name e) in
  lit "\t" +:+ genCSharpFieldAttributes (Element.Name e) true +:+ " public " +:+ fieldType
  +:+ " " +:+ fieldName +:+ " { get; set; }" +:+ getCSharpDefaultValue fieldType +:+ lit "\n".
Proof.
  unfold CSharpComplexType_element. rewrite genCSharpFieldName_not_unique.
  fold (resolved T gen (Element.Type_ e)).
  destruct (Element.Plural e), (Element.Optional e); rewrite ?append_nil_r; try reflexivity.
Qed.

Lemma CSharpGroup_element_line (T : string -> string) (gen : CodeGenerator)
    (c : gmap string Z) (e : Element.t) :
  CSharpGroup_element T gen c e =
  let fieldType :=
    (if Element.Plural e then "List<" +:+ resolved T gen (Element.Type_ e) +:+ ">"
     else resolved T gen (Element.Type_ e))
    +:+ (if Element.Optional e then "?" else "") in
  lit "\t\t" +:+ genCSharpFieldAttributes (Element.Name e) true +:+ " public " +:+ fieldType
  +:+ " " +:+ normalized T (Element.Name e) +:+ " { get; set; }"
  +:+ getCSharpDefaultValue fieldType +:+ lit "\n".
Proof.
  unfold CSharpGroup_element. rewrite genCSharpFieldName_not_unique.
  fold (resolved T gen (Element.Type_ e)).
  destruct (Element.Plural e), (Element.Optional e); rewrite ?append_nil_r; reflexivity.
Qed.

(** ** C1: plural and optional elements *)

(** C1 as the specification states it fails on a plural and optional
    element of type [string]: in a class and in a group its field has the type
    [List<string>?], with the nullable mark, and not [List<string>].  The
    declarations that the two handlers append to [gen.Field] show it. *)
Lemma C1_counterexample :
  let gen := mkGen "schema" "" "" ∅ [] in
  let item := Element.mk "" "item" "string" true true in
  CSharpComplexType_element (fun s => s) gen ∅ "Order" item
    = lit "\t\t[XmlElement(\x22item\x22)] public List<string>? Item { get; set; }\n"
  /\ CSharpGroup_element (fun s => s) gen ∅ item
    = lit "\t\t\t[XmlElement(\x22item\x22)] public List<string>? Item { get; set; }\n"
  /\ CSharpComplexType_element (fun s => s) gen ∅ "Order" item
    <> lit "\t\t[XmlElement(\x22item\x22)] public List<string> Item { get; set; } = new();\n"
  /\ CSharpComplexType_element (fun s => s) gen ∅ "Order" item
    <> lit "\t\t[XmlElement(\x22item\x22)] public List<string> Item { get; set; }\n"
  /\ Field (CSharpComplexType (fun s => s) (ComplexType.mk "" "order" "" [item] [] [] []) gen ∅).1
    = lit "\n\t// Order ...\n\t[GeneratedCode(\x22xgen\x22, null)]\n\t[XmlType(\x22order\x22)]\n\tpublic partial class Order\n\t{\n\t\t[XmlElement(\x22item\x22)] public List<string>? Item { get; set; }\n\t}\n"
  /\ Field (CSharpGroup (fun s => s) (Group.mk "" "items" [item] [] false "") gen ∅).1
    = lit "\n\t// Items ...\n\t[GeneratedCode(\x22xgen\x22, null)]\n\t[XmlType(\x22items\x22)]\n\tpublic partial class Items\n\t{\n\t\t\t[XmlElement(\x22item\x22)] public List<string>? Item { get; set; }\n\t}\n".
Proof. vm_compute. repeat split; discriminate. Qed.

(** ** C2: a simple type with a built-in base *)

(** C2, as the code has it.  On a SimpleType that is neither a list nor a
    union and whose resolved base is a built-in type of C#, the handler
    changes nothing: it emits no text, and it adds no entry to
    [gen.StructAST], which stays as it was, as does [fieldNameCount].
    Processing the construct again is therefore again without effect. *)
Theorem C2_builtin_base_changes_nothing :
  forall (T : string -> string) (rangeMap : gmap string string -> list kvPair)
         (v : SimpleType.t) (gen : CodeGenerator) (c : gmap string Z),
    SimpleType.List v = false ->
    SimpleType.Union v = false ->
    isBuiltInCSharpType (resolved T gen (SimpleType.Base v)) = true ->
    CSharpSimpleType T rangeMap v gen c = (gen, c).
Proof.
  intros T rangeMap v gen c HL HU HB. unfold CSharpSimpleType.
  rewrite HL, HU. cbv beta zeta iota delta [andb negb].
  fold (resolved T gen (SimpleType.Base v)). rewrite HB.
  now destruct (cached gen (SimpleType.Name v)).
Qed.

Lemma C2_witness :
  let v := SimpleType.mk "" "zipCode" "xs:string" false false ∅ in
  let gen := mkGen "schema" "" "" ∅ [Some (PSimpleType v)] in
  CSharpSimpleType (fun s => s) map_to_list v gen ∅ = (gen, ∅).
Proof. intros v gen. apply C2_builtin_base_changes_nothing; reflexivity. Defined.

(** C2 as the specification states it fails on the simple type [zipCode] with base [string]:
    no text is emitted, and after the handler has returned [zipCode] is not a
    key of [gen.StructAST]. *)
Lemma C2_counterexample :
  let v := SimpleType.mk "" "zipCode" "string" false false ∅ in
  let gen := mkGen "schema" "" "" ∅ [Some (PSimpleType v)] in
  let gen' := (CSharpSimpleType (fun s => s) map_to_list v gen ∅).1 in
  Field gen' = "" /\ StructAST gen' !! "zipCode" = None /\ cached gen' "zipCode" = false.
Proof. vm_compute. repeat split. Qed.

(** ** The text of a class *)

Lemma Sprintf_class (comment attributes name content : string) :
  Sprintf (lit "%s%s\tpublic partial class %s%s")
    [Str comment; Str attributes; Str name; Str content]
  = comment +:+ attributes +:+ lit "\tpublic partial class " +:+ name +:+ content.
Proof.
  transitivity
    (comment +:+ attributes +:+ lit "\tpublic partial class " +:+ name +:+ content +:+ "");
    [reflexivity | now rewrite append_nil_r].
Qed.

Lemma Sprintf_class_inheriting (comment attributes name inheritance content : string) :
  Sprintf (lit "%s%s\tpublic partial class %s%s%s")
    [Str comment; Str attributes; Str name; Str inheritance; Str content]
  = comment +:+ attributes +:+ lit "\tpublic partial class " +:+ name +:+ inheritance
    +:+ content.
Proof.
  transitivity
    (comment +:+ attributes +:+ lit "\tpublic partial class " +:+ name +:+ inheritance
     +:+ content +:+ "");
    [reflexivity | now rewrite append_nil_r].
Qed.



Lemma CSharpComplexType_attribute_line (T : string -> string) (gen : CodeGenerator)
    (c : gmap string Z) (a : Attribute.t) :
  CSharpComplexType_attribute T gen c a =
  let fieldType :=
    resolved T gen (Attribute.Type_ a) +:+ (if Attribute.Optional a then "?" else "") in
  lit "\t" +:+ genCSharpFieldAttributes (Attribute.Name a) false +:+ " public " +:+ fieldType
  +:+ " " +:+ normalized T (Attribute.Name a) +:+ "Attr { get; set; }"
  +:+ getCSharpDefaultValue fieldType +:+ lit "\n".
Proof.
  unfold CSharpComplexType_attribute. rewrite genCSharpFieldName_not_unique.
  fold (resolved T gen (Attribute.Type_ a)).
  destruct (Attribute.Optional a); rewrite ?append_nil_r; reflexivity.
Qed.

Lemma CSharpAttributeGroup_attribute_line (T : string -> string) (gen : CodeGenerator)
    (c : gmap string Z) (a : Attribute.t) :
  CSharpAttributeGroup_attribute T gen c a =
  let fieldType :=
    resolved T gen (Attribute.Type_ a) +:+ (if Attribute.Optional a then "?" else "") in
  lit "\t\t" +:+ genCSharpFieldAttributes (Attribute.Name a) false +:+ " public " +:+ fieldType
  +:+ " " +:+ normalized T (Attribute.Name a) +:+ "Attr { get; set; }"
  +:+ getCSharpDefaultValue fieldType +:+ lit "\n".
Proof.
  unfold CSharpAttributeGroup_attribute. rewrite genCSharpFieldName_not_unique.
  fold (resolved T gen (Attribute.Type_ a)).
  destruct (Attribute.Optional a); rewrite ?append_nil_r; reflexivity.
Qed.

Lemma cached_false (gen : CodeGenerator) (name : string) :
  cached gen name = false -> StructAST gen !! name = None.
Proof.
  unfold cached. intros H. apply bool_decide_eq_false in H.
  destruct (StructAST gen !! name) eqn:E; [|reflexivity]. exfalso. apply H. now exists s.
Qed.

Lemma Sprintf_textContent (fieldType : string) :
  Sprintf (lit "\t\t[XmlText(typeof(%s))] public %s? Value { get; set; }\n")
    [Str fieldType; Str fieldType]
  = lit "\t\t[XmlText(typeof(" +:+ fieldType +:+ "))] public " +:+ fieldType
    +:+ lit "? Value { get; set; }\n".
Proof. reflexivity. Qed.

Lemma StructAST_addField (text : string) (gen : CodeGenerator) :
  StructAST (addField text gen) = StructAST gen.
Proof. reflexivity. Qed.

Lemma Field_addField (text : string) (gen : CodeGenerator) :
  Field (addField text gen) = Field gen +:+ text.
Proof. reflexivity. Qed.

Lemma Field_setStructAST (name content : string) (gen : CodeGenerator) :
  Field (setStructAST name content gen) = Field gen.
Proof. reflexivity. Qed.

Lemma lookup_setStructAST (name content : string) (gen : CodeGenerator) :
  StructAST (setStructAST name content gen) !! name = Some content.
Proof. unfold setStructAST. simpl. apply lookup_insert_eq. Qed.

Lemma lookup_setStructAST_ne (name name' content : string) (gen : CodeGenerator) :
  name <> name' -> StructAST (setStructAST name content gen) !! name' = StructAST gen !! name'.
Proof. intros H. unfold setStructAST. simpl. now apply lookup_insert_ne. Qed.

(** What [CSharpComplexType] does on a class that is not in the cache. *)
Lemma CSharpComplexType_emits (T : string -> string) (v : ComplexType.t)
    (gen : CodeGenerator) (c : gmap string Z) :
  cached gen (ComplexType.Name v) = false ->
  let className := (genCSharpFieldName T (ComplexType.Name v) true c).1 in
  let c' := (genCSharpFieldName T (ComplexType.Name v) true c).2 in
  let content :=
    lit "\n\t{\n"
    +:+ flatten (map (CSharpComplexType_attrGroup T gen c' className)
                   (ComplexType.AttributeGroup v))
    +:+ flatten (map (CSharpComplexType_attribute T gen c') (ComplexType.Attributes v))
    +:+ flatten (map (CSharpComplexType_group T gen c' className) (ComplexType.Groups v))
    +:+ flatten (map (CSharpComplexType_element T gen c' className) (ComplexType.Elements v))
    +:+ textContentField T gen v +:+ lit "\t}\n" in
  CSharpComplexType T v gen c =
  (addField
     (genFieldComment className (ComplexType.Doc v) (lit "\t//")
      +:+ genCSharpClassAttributes (ComplexType.Name v)
      +:+ lit "\tpublic partial class " +:+ className +:+ inheritanceClause T gen v
      +:+ content)
     (setStructAST (ComplexType.Name v) content gen),
   c').
Proof.
  intros Hc className c' content. unfold CSharpComplexType. rewrite Hc.
  cbv beta zeta iota delta [negb].
  subst className c'.
  destruct (genCSharpFieldName T (ComplexType.Name v) true c) as [className c'].
  cbv beta iota delta [fst snd] in content |- *.
  rewrite !fold_left_append.
  rewrite lookup_setStructAST. cbv beta iota delta [default].
  rewrite Sprintf_class_inheriting.
  fold (resolved T gen (ComplexType.Base v)).
  assert (Hcontent :
    ((if (0 <? String.length (ComplexType.Base v))%nat
         && isBuiltInCSharpType (ComplexType.Base v)
      then
        ((((lit "\n\t{\n"
            +:+ flatten (map (CSharpComplexType_attrGroup T gen c' className)
                           (ComplexType.AttributeGroup v)))
           +:+ flatten (map (CSharpComplexType_attribute T gen c') (ComplexType.Attributes v)))
          +:+ flatten (map (CSharpComplexType_group T gen c' className) (ComplexType.Groups v)))
         +:+ flatten (map (CSharpComplexType_element T gen c' className)
                        (ComplexType.Elements v)))
        +:+ Sprintf (lit "\t\t[XmlText(typeof(%s))] public %s? Value { get; set; }\n")
              [Str (resolved T gen (ComplexType.Base v));
               Str (resolved T gen (ComplexType.Base v))]
      else
        (((lit "\n\t{\n"
           +:+ flatten (map (CSharpComplexType_attrGroup T gen c' className)
                          (ComplexType.AttributeGroup v)))
          +:+ flatten (map (CSharpComplexType_attribute T gen c') (ComplexType.Attributes v)))
         +:+ flatten (map (CSharpComplexType_group T gen c' className) (ComplexType.Groups v)))
        +:+ flatten (map (CSharpComplexType_element T gen c' className)
                       (ComplexType.Elements v)))
     +:+ lit "\t}\n") = content).
  { subst content. unfold textContentField.
    destruct ((0 <? String.length (ComplexType.Base v))%nat
              && isBuiltInCSharpType (ComplexType.Base v)).
    - rewrite Sprintf_textContent, !append_assoc. reflexivity.
    - rewrite !append_assoc. reflexivity. }
  rewrite Hcontent. reflexivity.
Qed.

(** What [CSharpAttributeGroup] does on a group that is not in the cache. *)
Lemma CSharpAttributeGroup_emits (T : string -> string) (v : AttributeGroup.t)
    (gen : CodeGenerator) (c : gmap string Z) :
  cached gen (AttributeGroup.Name v) = false ->
  let className := (genCSharpFieldName T (AttributeGroup.Name v) true c).1 in
  let c' := (genCSharpFieldName T (AttributeGroup.Name v) true c).2 in
  let content :=
    lit "\n\t{\n"
    +:+ flatten (map (CSharpAttributeGroup_attribute T gen c') (AttributeGroup.Attributes v))
    +:+ lit "\t}\n" in
  CSharpAttributeGroup T v gen c =
  (addField
     (genFieldComment className (AttributeGroup.Doc v) (lit "\t//")
      +:+ genCSharpClassAttributes (AttributeGroup.Name v)
      +:+ lit "\tpublic partial class " +:+ className +:+ content)
     (setStructAST (AttributeGroup.Name v) content gen),
   c').
Proof.
  intros Hc className c' content. unfold CSharpAttributeGroup. rewrite Hc.
  cbv beta zeta iota delta [negb].
  subst className c'.
  destruct (genCSharpFieldName T (AttributeGroup.Name v) true c) as [className c'].
  cbv beta iota delta [fst snd] in content |- *.
  rewrite !fold_left_append, lookup_setStructAST. cbv beta iota delta [default].
  rewrite Sprintf_class, !append_assoc. reflexivity.
Qed.

(** What [CSharpGroup] does on a group that is not in the cache. *)
Lemma CSharpGroup_emits (T : string -> string) (v : Group.t)
    (gen : CodeGenerator) (c : gmap string Z) :
  cached gen (Group.Name v) = false ->
  let fieldName := (genCSharpFieldName T (Group.Name v) true c).1 in
  let c' := (genCSharpFieldName T (Group.Name v) true c).2 in
  let content :=
    lit "\n\t{\n"
    +:+ flatten (map (CSharpGroup_element T gen c) (Group.Elements v))
    +:+ flatten (map (CSharpGroup_group T gen c) (Group.Groups v))
    +:+ lit "\t}\n" in
  CSharpGroup T v gen c =
  (addField
     (genFieldComment fieldName (Group.Doc v) (lit "\t//")
      +:+ genCSharpClassAttributes (Group.Name v)
      +:+ lit "\tpublic partial class " +:+ fieldName +:+ content)
     (setStructAST (Group.Name v) content gen),
   c').
Proof.
  intros Hc fieldName c' content. unfold CSharpGroup. rewrite Hc.
  cbv beta zeta iota delta [negb].
  subst fieldName c'.
  destruct (genCSharpFieldName T (Group.Name v) true c) as [fieldName c'].
  cbv beta iota delta [fst snd] in content |- *.
  rewrite !fold_left_append, lookup_setStructAST. cbv beta iota delta [default].
  rewrite Sprintf_class, !append_assoc. reflexivity.
Qed.

Lemma flatten_map_ext {A : Type} (f g : A -> string) (l : list A) :
  (forall x, f x = g x) -> flatten (map f l) = flatten (map g l).
Proof. intros H. induction l as [|x l IH]; simpl; [reflexivity | now rewrite H, IH]. Qed.

(** ** C1: the declarations of classes and groups, element by element *)

(** C1, as the code has it.  The class that [CSharpComplexType] appends to
    [gen.Field], and the class that [CSharpGroup] appends, hold one field for
    every element, in the order of the elements.  The type of the field is
    the resolved type of the element, put in the collection form [List<...>]
    when the element is plural, and then given the nullable mark [?] when the
    element is optional, whether it is plural or not: [List<T>?] for a plural
    and optional element, [List<T>] for a plural one that is not optional,
    [T?] for an optional one that is not plural, [T] for one that is
    neither. *)
Theorem C1_optional_marks_collections_too :
  forall (T : string -> string) (gen : CodeGenerator) (c : gmap string Z),
    let fieldType (e : Element.t) :=
      (if Element.Plural e then "List<" +:+ resolved T gen (Element.Type_ e) +:+ ">"
       else resolved T gen (Element.Type_ e))
      +:+ (if Element.Optional e then "?" else "") in
    (forall v : ComplexType.t,
       cached gen (ComplexType.Name v) = false ->
       let className := (genCSharpFieldName T (ComplexType.Name v) true c).1 in
       let c' := (genCSharpFieldName T (ComplexType.Name v) true c).2 in
       let record :=
         lit "\n\t{\n"
         +:+ flatten (map (CSharpComplexType_attrGroup T gen c' className)
                        (ComplexType.AttributeGroup v))
         +:+ flatten (map (CSharpComplexType_attribute T gen c') (ComplexType.Attributes v))
         +:+ flatten (map (CSharpComplexType_group T gen c' className) (ComplexType.Groups v))
         +:+ flatten
               (map (fun e =>
                       lit "\t" +:+ genCSharpFieldAttributes (Element.Name e) true
                       +:+ " public " +:+ fieldType e +:+ " "
                       +:+ (if String.eqb (normalized T (Element.Name e)) className
                            then normalized T (Element.Name e) +:+ "Value"
                            else normalized T (Element.Name e))
                       +:+ " { get; set; }" +:+ getCSharpDefaultValue (fieldType e)
                       +:+ lit "\n")
                  (ComplexType.Elements v))
         +:+ textContentField T gen v +:+ lit "\t}\n" in
       Field (CSharpComplexType T v gen c).1 =
         Field gen +:+ genFieldComment className (ComplexType.Doc v) (lit "\t//")
         +:+ genCSharpClassAttributes (ComplexType.Name v)
         +:+ lit "\tpublic partial class " +:+ className +:+ inheritanceClause T gen v
         +:+ record
       /\ StructAST (CSharpComplexType T v gen c).1 !! ComplexType.Name v = Some record)
    /\ (forall v : Group.t,
          cached gen (Group.Name v) = false ->
          let className := (genCSharpFieldName T (Group.Name v) true c).1 in
          let record :=
            lit "\n\t{\n"
            +:+ flatten
                  (map (fun e =>
                          lit "\t\t" +:+ genCSharpFieldAttributes (Element.Name e) true
                          +:+ " public " +:+ fieldType e +:+ " "
                          +:+ normalized T (Element.Name e)
                          +:+ " { get; set; }" +:+ getCSharpDefaultValue (fieldType e)
                          +:+ lit "\n")
                     (Group.Elements v))
            +:+ flatten (map (CSharpGroup_group T gen c) (Group.Groups v))
            +:+ lit "\t}\n" in
          Field (CSharpGroup T v gen c).1 =
            Field gen +:+ genFieldComment className (Group.Doc v) (lit "\t//")
            +:+ genCSharpClassAttributes (Group.Name v)
            +:+ lit "\tpublic partial class " +:+ className +:+ record
          /\ StructAST (CSharpGroup T v gen c).1 !! Group.Name v = Some record)
    /\ (forall doc name type,
          fieldType (Element.mk doc name type true true)
            = ("List<" +:+ resolved T gen type +:+ ">") +:+ "?"
          /\ fieldType (Element.mk doc name type true false)
            = "List<" +:+ resolved T gen type +:+ ">"
          /\ fieldType (Element.mk doc name type false true) = resolved T gen type +:+ "?"
          /\ fieldType (Element.mk doc name type false false) = resolved T gen type).
Proof.
  intros T gen c fieldType. split; [|split].
  - intros v Hc className c' record.
    rewrite (CSharpComplexType_emits T v gen c Hc). unfold fst.
    rewrite Field_addField, Field_setStructAST, StructAST_addField, lookup_setStructAST.
    fold className. fold c'.
    rewrite (flatten_map_ext _ _ _ (CSharpComplexType_element_line T gen c' className)).
    split; reflexivity.
  - intros v Hc className record.
    rewrite (CSharpGroup_emits T v gen c Hc). unfold fst.
    rewrite Field_addField, Field_setStructAST, StructAST_addField, lookup_setStructAST.
    fold className.
    rewrite (flatten_map_ext _ _ _ (CSharpGroup_element_line T gen c)).
    split; reflexivity.
  - intros doc name type. subst fieldType. cbn [Element.Plural Element.Optional Element.Type_].
    rewrite !append_nil_r. repeat split; reflexivity.
Qed.

Lemma C1_witness :
  let item := Element.mk "" "item" "string" true true in
  let note := Element.mk "" "note" "string" false true in
  let count := Element.mk "" "count" "int" false false in
  let gen := mkGen "schema" "" "" ∅ [] in
  Field (CSharpComplexType (fun s => s)
           (ComplexType.mk "" "order" "" [item; note; count] [] [] []) gen ∅).1
    = lit "\n\t// Order ...\n\t[GeneratedCode(\x22xgen\x22, null)]\n\t[XmlType(\x22order\x22)]\n\tpublic partial class Order\n\t{\n\t\t[XmlElement(\x22item\x22)] public List<string>? Item { get; set; }\n\t\t[XmlElement(\x22note\x22)] public string? Note { get; set; }\n\t\t[XmlElement(\x22count\x22)] public int Count { get; set; }\n\t}\n"
  /\ Field (CSharpGroup (fun s => s) (Group.mk "" "items" [item; note; count] [] false "")
              gen ∅).1
    = lit "\n\t// Items ...\n\t[GeneratedCode(\x22xgen\x22, null)]\n\t[XmlType(\x22items\x22)]\n\tpublic partial class Items\n\t{\n\t\t\t[XmlElement(\x22item\x22)] public List<string>? Item { get; set; }\n\t\t\t[XmlElement(\x22note\x22)] public string? Note { get; set; }\n\t\t\t[XmlElement(\x22count\x22)] public int Count { get; set; }\n\t}\n".
Proof.
  intros item note count gen.
  destruct (C1_optional_marks_collections_too (fun s => s) gen ∅) as (HC & HG & _).
  split.
  - etransitivity;
      [exact (proj1 (HC (ComplexType.mk "" "order" "" [item; note; count] [] [] []) eq_refl))|].
    vm_compute. reflexivity.
  - etransitivity;
      [exact (proj1 (HG (Group.mk "" "items" [item; note; count] [] false "") eq_refl))|].
    vm_compute. reflexivity.
Defined.

(** ** C7: a field named as its class *)




(** ** C10: the fields of attributes *)

(** C10. The class that [CSharpComplexType] appends to [gen.Field], and the
    class that [CSharpAttributeGroup] appends, hold one field for every
    attribute, and the name of the field is the normalized name of the
    attribute followed by [Attr].  The name of the class has no part in it:
    the field is the same whether or not the normalized name of the
    attribute, with or without the suffix, is the name of the class. *)
Theorem C10_attribute_fields_end_in_Attr :
  forall (T : string -> string) (gen : CodeGenerator) (c : gmap string Z),
    let attributeField (indent : string) (a : Attribute.t) :=
      let fieldType :=
        resolved T gen (Attribute.Type_ a) +:+ (if Attribute.Optional a then "?" else "") in
      indent +:+ genCSharpFieldAttributes (Attribute.Name a) false +:+ " public " +:+ fieldType
      +:+ " " +:+ (normalized T (Attribute.Name a) +:+ "Attr") +:+ " { get; set; }"
      +:+ getCSharpDefaultValue fieldType +:+ lit "\n" in
    (forall v : ComplexType.t,
       cached gen (ComplexType.Name v) = false ->
       let className := (genCSharpFieldName T (ComplexType.Name v) true c).1 in
       let c' := (genCSharpFieldName T (ComplexType.Name v) true c).2 in
       let record :=
         lit "\n\t{\n"
         +:+ flatten (map (CSharpComplexType_attrGroup T gen c' className)
                        (ComplexType.AttributeGroup v))
         +:+ flatten (map (attributeField (lit "\t")) (ComplexType.Attributes v))
         +:+ flatten (map (CSharpComplexType_group T gen c' className) (ComplexType.Groups v))
         +:+ flatten (map (CSharpComplexType_element T gen c' className)
                        (ComplexType.Elements v))
         +:+ textContentField T gen v +:+ lit "\t}\n" in
       Field (CSharpComplexType T v gen c).1 =
         Field gen +:+ genFieldComment className (ComplexType.Doc v) (lit "\t//")
         +:+ genCSharpClassAttributes (ComplexType.Name v)
         +:+ lit "\tpublic partial class " +:+ className +:+ inheritanceClause T gen v
         +:+ record
       /\ StructAST (CSharpComplexType T v gen c).1 !! ComplexType.Name v = Some record)
    /\ (forall v : AttributeGroup.t,
          cached gen (AttributeGroup.Name v) = false ->
          let className := (genCSharpFieldName T (AttributeGroup.Name v) true c).1 in
          let record :=
            lit "\n\t{\n"
            +:+ flatten (map (attributeField (lit "\t\t")) (AttributeGroup.Attributes v))
            +:+ lit "\t}\n" in
          Field (CSharpAttributeGroup T v gen c).1 =
            Field gen +:+ genFieldComment className (AttributeGroup.Doc v) (lit "\t//")
            +:+ genCSharpClassAttributes (AttributeGroup.Name v)
            +:+ lit "\tpublic partial class " +:+ className +:+ record
          /\ StructAST (CSharpAttributeGroup T v gen c).1 !! AttributeGroup.Name v
             = Some record).
Proof.
  intros T gen c attributeField.
  assert (Hfield : forall indent a,
    attributeField indent a =
    let fieldType :=
      resolved T gen (Attribute.Type_ a) +:+ (if Attribute.Optional a then "?" else "") in
    indent +:+ genCSharpFieldAttributes (Attribute.Name a) false +:+ " public " +:+ fieldType
    +:+ " " +:+ normalized T (Attribute.Name a) +:+ "Attr { get; set; }"
    +:+ getCSharpDefaultValue fieldType +:+ lit "\n").
  { intros indent a. subst attributeField. cbv beta zeta.
    now rewrite (append_assoc (normalized T (Attribute.Name a)) "Attr"). }
  split.
  - intros v Hc className c' record.
    rewrite (CSharpComplexType_emits T v gen c Hc). unfold fst.
    rewrite Field_addField, Field_setStructAST, StructAST_addField, lookup_setStructAST.
    fold className. fold c'.
    rewrite (flatten_map_ext (CSharpComplexType_attribute T gen c') (attributeField (lit "\t")));
      [split; reflexivity|].
    intros a. now rewrite Hfield, CSharpComplexType_attribute_line.
  - intros v Hc className record.
    rewrite (CSharpAttributeGroup_emits T v gen c Hc). unfold fst.
    rewrite Field_addField, Field_setStructAST, StructAST_addField, lookup_setStructAST.
    fold className.
    rewrite (flatten_map_ext
               (CSharpAttributeGroup_attribute T gen
                  (genCSharpFieldName T (AttributeGroup.Name v) true c).2)
               (attributeField (lit "\t\t"))); [split; reflexivity|].
    intros a. now rewrite Hfield, CSharpAttributeGroup_attribute_line.
Qed.

Lemma C10_witness :
  let attrs := [Attribute.mk "ship-to" "" "string" false true;
                Attribute.mk "ship.to" "" "int" false false] in
  let class := ComplexType.mk "" "shipTo" "" [] attrs [] [] in
  let group := AttributeGroup.mk "" "ShipToAttr" "" attrs in
  let gen := mkGen "schema" "" "" ∅ [Some (PComplexType class); Some (PAttributeGroup group)] in
  (cached gen "shipTo" = false
   /\ Field (CSharpComplexType (fun s => s) class gen ∅).1 =
      lit "\n\t// ShipTo ...\n\t[GeneratedCode(\x22xgen\x22, null)]\n\t[XmlType(\x22shipTo\x22)]\n\tpublic partial class ShipTo\n\t{\n\t\t[XmlAttribute(\x22ship-to\x22)] public string? ShiptoAttr { get; set; }\n\t\t[XmlAttribute(\x22ship.to\x22)] public int ShipToAttr { get; set; }\n\t}\n")
  /\ (cached gen "ShipToAttr" = false
      /\ Field (CSharpAttributeGroup (fun s => s) group gen ∅).1 =
         lit "\n\t// ShipToAttr ...\n\t[GeneratedCode(\x22xgen\x22, null)]\n\t[XmlType(\x22ShipToAttr\x22)]\n\tpublic partial class ShipToAttr\n\t{\n\t\t\t[XmlAttribute(\x22ship-to\x22)] public string? ShiptoAttr { get; set; }\n\t\t\t[XmlAttribute(\x22ship.to\x22)] public int ShipToAttr { get; set; }\n\t}\n").
Proof.
  intros attrs class group gen.
  destruct (C10_attribute_fields_end_in_Attr (fun s => s) gen ∅) as [H1 H2].
  split; (split; [reflexivity|]).
  - etransitivity; [exact (proj1 (H1 class eq_refl))|]. vm_compute. reflexivity.
  - etransitivity; [exact (proj1 (H2 group eq_refl))|]. vm_compute. reflexivity.
Defined.

(** ** C5: the base of a class *)

Lemma nonempty_length (s : string) : s <> "" -> (0 <? String.length s)%nat = true.
Proof. destruct s; [congruence | reflexivity]. Qed.

(** What [CSharpComplexType] makes of a base.  When the base, as it is
    written in the construct, is a key of [csharpBuildInType], the class gets
    one text-content field after its fields and no inheritance clause.
    Otherwise it gets an inheritance clause and no text-content field.  In
    both cases the type named is the one that the base resolves to. *)
Lemma CSharpComplexType_base :
  forall (T : string -> string) (v : ComplexType.t) (gen : CodeGenerator) (c : gmap string Z),
    cached gen (ComplexType.Name v) = false ->
    ComplexType.Base v <> "" ->
    let className := (genCSharpFieldName T (ComplexType.Name v) true c).1 in
    let c' := (genCSharpFieldName T (ComplexType.Name v) true c).2 in
    let base := genCSharpFieldType T
                  (getBasefromSimpleType (trimNSPrefix (ComplexType.Base v)) (ProtoTree gen)) in
    let fields :=
      flatten (map (CSharpComplexType_attrGroup T gen c' className)
                 (ComplexType.AttributeGroup v))
      +:+ flatten (map (CSharpComplexType_attribute T gen c') (ComplexType.Attributes v))
      +:+ flatten (map (CSharpComplexType_group T gen c' className) (ComplexType.Groups v))
      +:+ flatten (map (CSharpComplexType_element T gen c' className)
                     (ComplexType.Elements v)) in
    let declaration :=
      genFieldComment className (ComplexType.Doc v) (lit "\t//")
      +:+ genCSharpClassAttributes (ComplexType.Name v)
      +:+ lit "\tpublic partial class " +:+ className in
    let gen' := (CSharpComplexType T v gen c).1 in
    if isBuiltInCSharpType (ComplexType.Base v) then
      Field gen' =
        Field gen +:+ declaration +:+ lit "\n\t{\n" +:+ fields
        +:+ lit "\t\t[XmlText(typeof(" +:+ base +:+ "))] public " +:+ base
        +:+ lit "? Value { get; set; }\n" +:+ lit "\t}\n"
    else
      Field gen' =
        Field gen +:+ declaration +:+ " : " +:+ base +:+ " " +:+ lit "\n\t{\n" +:+ fields
        +:+ lit "\t}\n".
Proof.
  intros T v gen c Hc Hb className c' base fields declaration gen'.
  subst gen'. rewrite (CSharpComplexType_emits T v gen c Hc). unfold fst.
  rewrite Field_addField, Field_setStructAST.
  unfold inheritanceClause, textContentField. rewrite (nonempty_length _ Hb).
  fold className. fold c'. unfold resolved. fold base.
  subst declaration fields.
  destruct (isBuiltInCSharpType (ComplexType.Base v)); cbv beta iota delta [andb negb].
  - rewrite !append_assoc. reflexivity.
  - rewrite !append_assoc. reflexivity.
Qed.

Lemma CSharpComplexType_base_example :
  let amount := ComplexType.mk "" "amount" "decimal" [] [] [] [] in
  let invoice := ComplexType.mk "" "invoice" "tns:document" [] [] [] [] in
  let gen :=
    mkGen "schema" "" "" ∅ [Some (PComplexType amount); Some (PComplexType invoice)] in
  Field (CSharpComplexType (fun s => s) amount gen ∅).1 =
    lit "\n\t// Amount ...\n\t[GeneratedCode(\x22xgen\x22, null)]\n\t[XmlType(\x22amount\x22)]\n\tpublic partial class Amount\n\t{\n\t\t[XmlText(typeof(decimal))] public decimal? Value { get; set; }\n\t}\n"
  /\ Field (CSharpComplexType (fun s => s) invoice gen ∅).1 =
    lit "\n\t// Invoice ...\n\t[GeneratedCode(\x22xgen\x22, null)]\n\t[XmlType(\x22invoice\x22)]\n\tpublic partial class Invoice : Document \n\t{\n\t}\n".
Proof.
  intros amount invoice gen. split.
  - etransitivity;
      [exact (CSharpComplexType_base (fun s => s) amount gen ∅ eq_refl
                ltac:(discriminate))|].
    vm_compute. reflexivity.
  - etransitivity;
      [exact (CSharpComplexType_base (fun s => s) invoice gen ∅ eq_refl
                ltac:(discriminate))|].
    vm_compute. reflexivity.
Defined.

(** C5 fails in the code on a class whose base is not itself a built-in
    type of C# and resolves to one.  [CSharpComplexType] tests the base as it
    is written to choose between the text-content field and the inheritance
    clause, and names the resolved base in either; [CSharpSimpleType],
    [CSharpElement] and [CSharpAttribute] test the resolved type.  The class
    [price] with the base [money], a SimpleType of the tree over [decimal],
    and the class [note] with the base [xs:string] get no text-content field
    and inherit from [decimal] and from [string]. *)
Theorem C5_class_inherits_from_built_in_type :
  let money := SimpleType.mk "" "money" "decimal" false false ∅ in
  let price := ComplexType.mk "" "price" "money" [] [] [] [] in
  let note := ComplexType.mk "" "note" "xs:string" [] [] [] [] in
  let gen :=
    mkGen "schema" "" "" ∅
      [Some (PSimpleType money); Some (PComplexType price); Some (PComplexType note)] in
  Field (walk (fun s => s) map_to_list (ProtoTree gen) gen ∅).1 =
    lit "\n\t// Price ...\n\t[GeneratedCode(\x22xgen\x22, null)]\n\t[XmlType(\x22price\x22)]\n\tpublic partial class Price : decimal \n\t{\n\t}\n\n\t// Note ...\n\t[GeneratedCode(\x22xgen\x22, null)]\n\t[XmlType(\x22note\x22)]\n\tpublic partial class Note : string \n\t{\n\t}\n"
  /\ isBuiltInCSharpType "money" = false
  /\ isBuiltInCSharpType (resolved (fun s => s) gen "money") = true
  /\ isBuiltInCSharpType "xs:string" = false
  /\ isBuiltInCSharpType (resolved (fun s => s) gen "xs:string") = true
  /\ normalized (fun s => s) "money" = "Money".
Proof. vm_compute. repeat split. Qed.

(** ** The order of [kvPairList.Less] *)

Lemma compare_refl (s : string) : String.compare s s = Eq.
Proof.
  induction s as [|x s IH]; [reflexivity|]. simpl.
  unfold Ascii.compare. now rewrite N.compare_refl.
Qed.

Lemma compare_Gt_Lt (s1 s2 : string) : String.compare s1 s2 = Gt <-> String.compare s2 s1 = Lt.
Proof.
  rewrite (String.compare_antisym s2 s1).
  destruct (String.compare s1 s2); simpl; split; congruence.
Qed.

Lemma compare_le (s1 s2 : string) : String.le s1 s2 <-> String.compare s1 s2 <> Gt.
Proof.
  unfold String.le, String.leb.
  destruct (String.compare s1 s2); simpl; split; try congruence; try tauto.
Qed.

Lemma compare_Lt_trans (s1 s2 s3 : string) :
  String.compare s1 s2 = Lt -> String.compare s2 s3 = Lt -> String.compare s1 s3 = Lt.
Proof.
  intros H12 H23.
  assert (Hle : String.le s1 s3).
  { transitivity s2; apply compare_le; congruence. }
  apply compare_le in Hle.
  destruct (String.compare s1 s3) eqn:E; [|reflexivity|congruence].
  apply String.compare_eq_iff in E. subst s3.
  apply compare_Gt_Lt in H23. congruence.
Qed.

Lemma Less_spec (a b : kvPair) :
  Less a b = true <->
  String.compare (value a) (value b) = Lt
  \/ (value a = value b /\ String.compare (key a) (key b) = Gt).
Proof.
  unfold Less, String.ltb. rewrite orb_true_iff, andb_true_iff, String.eqb_eq.
  destruct (String.compare (value a) (value b)), (String.compare (key a) (key b));
    intuition congruence.
Qed.

(** An entry may stand before another one when its value is the smaller one,
    or when the values are equal and its key is not the smaller one. *)
Lemma sortOrder_spec (a b : kvPair) :
  sortOrder a b <->
  String.compare (value a) (value b) = Lt
  \/ (value a = value b /\ String.compare (key a) (key b) <> Lt).
Proof.
  unfold sortOrder. rewrite <- not_true_iff_false, Less_spec.
  rewrite (String.compare_antisym (value a) (value b)).
  rewrite (String.compare_antisym (key a) (key b)).
  destruct (String.compare (value b) (value a)) eqn:E; simpl.
  - apply String.compare_eq_iff in E.
    destruct (String.compare (key b) (key a)); simpl; intuition congruence.
  - assert (value a <> value b).
    { intros Heq. rewrite Heq, compare_refl in E. discriminate. }
    intuition congruence.
  - assert (value b <> value a).
    { intros Heq. rewrite Heq, compare_refl in E. discriminate. }
    intuition congruence.
Qed.

#[global] Instance sortOrder_total : Total sortOrder.
Proof.
  intros a b. rewrite !sortOrder_spec.
  rewrite (String.compare_antisym (value a) (value b)).
  rewrite (String.compare_antisym (key a) (key b)).
  destruct (String.compare (value b) (value a)) eqn:E; simpl.
  - apply String.compare_eq_iff in E.
    destruct (String.compare (key b) (key a)); simpl; intuition congruence.
  - right. now left.
  - left. now left.
Qed.

#[global] Instance sortOrder_trans : Transitive sortOrder.
Proof.
  intros a b c. rewrite !sortOrder_spec.
  intros [Hab|[Hab Kab]] [Hbc|[Hbc Kbc]].
  - left. eapply compare_Lt_trans; eassumption.
  - left. now rewrite <- Hbc.
  - left. now rewrite Hab.
  - right. split; [congruence|].
    intros Hac.
    destruct (String.compare (key b) (key c)) eqn:E; [| congruence |].
    + apply String.compare_eq_iff in E. congruence.
    + apply Kab. eapply compare_Lt_trans; [exact Hac|].
      now apply compare_Gt_Lt.
Qed.

#[global] Instance sortOrder_antisymm : AntiSymm (=) sortOrder.
Proof.
  intros a b. rewrite !sortOrder_spec.
  intros [Hab|[Hab Kab]] [Hba|[Hba Kba]].
  - apply compare_Gt_Lt in Hba. congruence.
  - rewrite Hba, compare_refl in Hab. discriminate.
  - rewrite Hab, compare_refl in Hba. discriminate.
  - destruct (String.compare (key a) (key b)) eqn:E; [|congruence|].
    + apply String.compare_eq_iff in E. destruct a, b; simpl in *; congruence.
    + apply compare_Gt_Lt in E. congruence.
Qed.

(** [sort.Sort] is determined by its contract: every permutation of the slice
    in which no later entry is [Less] than an earlier one is the slice that
    [sort_Sort] returns. *)
Lemma sort_Sort_determined (pl sorted : list kvPair) :
  sorted ≡ₚ pl -> StronglySorted sortOrder sorted -> sorted = sort_Sort pl.
Proof.
  intros Hperm Hsorted. apply (StronglySorted_unique sortOrder); [exact Hsorted| |].
  - apply StronglySorted_merge_sort; apply _.
  - unfold sort_Sort. now rewrite merge_sort_Permutation.
Qed.

Lemma sort_Sort_Permutation (pl pl' : list kvPair) :
  pl ≡ₚ pl' -> sort_Sort pl = sort_Sort pl'.
Proof.
  intros Hperm. apply sort_Sort_determined.
  - unfold sort_Sort. now rewrite merge_sort_Permutation.
  - apply StronglySorted_merge_sort; apply _.
Qed.

Lemma range_append (l : list kvPair) (pl : list kvPair) :
  fold_left (fun pl kv => (pl ++ [(kv.1, kv.2)])%list) l pl = (pl ++ l)%list.
Proof.
  revert pl. induction l as [|[k x] l IH]; intros pl; simpl.
  - now rewrite app_nil_r.
  - rewrite IH, <- app_assoc. reflexivity.
Qed.

(** The sorted pairs do not depend on the order in which the map was
    ranged over. *)
Lemma toSortedPairs_canonical (rangeMap : gmap string string -> list kvPair)
    (toSort : gmap string string) :
  lawful rangeMap -> toSortedPairs rangeMap toSort = sort_Sort (map_to_list toSort).
Proof.
  intros Hlaw. unfold toSortedPairs. rewrite range_append. simpl.
  apply sort_Sort_Permutation, Hlaw.
Qed.

(** In the sorted pairs of a map each entry stands strictly before the later
    ones: smaller value, or equal value and greater key. *)
Lemma sort_Sort_strict (m : gmap string string) :
  StronglySorted
    (fun a b =>
       String.compare (value a) (value b) = Lt
       \/ (value a = value b /\ String.compare (key a) (key b) = Gt))
    (sort_Sort (map_to_list m)).
Proof.
  assert (Hnodup : NoDup (sort_Sort (map_to_list m))).
  { unfold sort_Sort. rewrite merge_sort_Permutation. apply NoDup_map_to_list. }
  assert (Hsorted : StronglySorted sortOrder (sort_Sort (map_to_list m))).
  { apply StronglySorted_merge_sort; apply _. }
  induction Hsorted as [|a l Hl IH Ha]; constructor.
  - apply IH. now apply NoDup_cons in Hnodup as [_ ?].
  - apply NoDup_cons in Hnodup as [Hnotin _].
    rewrite Forall_forall in Ha |- *. intros b Hb.
    specialize (Ha b Hb). apply sortOrder_spec in Ha as [Hlt|[Heq Hk]]; [now left|right].
    split; [exact Heq|].
    destruct (String.compare (key a) (key b)) eqn:E; [|congruence|reflexivity].
    apply String.compare_eq_iff in E. exfalso. apply Hnotin.
    destruct a, b; simpl in *; subst. exact Hb.
Qed.

(** ** C3: the record of a union *)

Lemma CSharpSimpleType_member_line (T : string -> string) (gen : CodeGenerator)
    (c : gmap string Z) (member : kvPair) :
  CSharpSimpleType_member T gen c member =
  lit "\t\t" +:+ genCSharpFieldAttributes (key member) true +:+ " public "
  +:+ genCSharpFieldType T
        (if String.eqb (value member) ""
         then getBasefromSimpleType (key member) (ProtoTree gen) else value member)
  +:+ "? " +:+ normalized T (key member) +:+ lit " { get; set; }\n".
Proof. reflexivity. Qed.

(** What [CSharpSimpleType] does on a union that is not in the cache. *)
Lemma CSharpSimpleType_union_emits (T : string -> string)
    (rangeMap : gmap string string -> list kvPair) (v : SimpleType.t)
    (gen : CodeGenerator) (c : gmap string Z) :
  lawful rangeMap ->
  SimpleType.List v = false ->
  SimpleType.Union v = true ->
  (0 < size (SimpleType.MemberTypes v))%nat ->
  cached gen (SimpleType.Name v) = false ->
  let fieldName := (genCSharpFieldName T (SimpleType.Name v) true c).1 in
  let c' := (genCSharpFieldName T (SimpleType.Name v) true c).2 in
  let content :=
    lit "\n\t{\n"
    +:+ flatten (map (CSharpSimpleType_member T gen c)
                   (sort_Sort (map_to_list (SimpleType.MemberTypes v))))
    +:+ lit "\t}\n" in
  CSharpSimpleType T rangeMap v gen c =
  (addField
     (genFieldComment fieldName (SimpleType.Doc v) (lit "\t//")
      +:+ genCSharpClassAttributes (SimpleType.Name v)
      +:+ lit "\tpublic partial class " +:+ fieldName +:+ content)
     (setStructAST (SimpleType.Name v) content gen),
   c').
Proof.
  intros Hlaw HL HU Hsize Hc fieldName c' content. unfold CSharpSimpleType.
  apply Nat.ltb_lt in Hsize. rewrite HL, HU, Hsize, Hc.
  cbv beta zeta iota delta [andb negb].
  subst fieldName c'.
  destruct (genCSharpFieldName T (SimpleType.Name v) true c) as [fieldName c'].
  cbv beta iota delta [fst snd].
  rewrite fold_left_append, (toSortedPairs_canonical rangeMap _ Hlaw).
  rewrite Sprintf_class, !append_assoc. reflexivity.
Qed.

(** What [CSharpSimpleType] does on a list that is not in the cache. *)
Lemma CSharpSimpleType_list_emits (T : string -> string)
    (rangeMap : gmap string string -> list kvPair) (v : SimpleType.t)
    (gen : CodeGenerator) (c : gmap string Z) :
  SimpleType.List v = true ->
  cached gen (SimpleType.Name v) = false ->
  let fieldName := (genCSharpFieldName T (SimpleType.Name v) true c).1 in
  let c' := (genCSharpFieldName T (SimpleType.Name v) true c).2 in
  let content := " : List<" +:+ resolved T gen (SimpleType.Base v) +:+ lit "> {};\n" in
  CSharpSimpleType T rangeMap v gen c =
  (addField
     (genFieldComment fieldName (SimpleType.Doc v) (lit "\t//")
      +:+ genCSharpClassAttributes (SimpleType.Name v)
      +:+ lit "\tpublic partial class " +:+ fieldName +:+ content)
     (setStructAST (SimpleType.Name v) content gen),
   c').
Proof.
  intros HL Hc fieldName c' content. unfold CSharpSimpleType. rewrite HL, Hc.
  cbv beta zeta iota delta [negb].
  subst fieldName c'.
  destruct (genCSharpFieldName T (SimpleType.Name v) true c) as [fieldName c'].
  cbv beta iota delta [fst snd].
  rewrite Sprintf_class. reflexivity.
Qed.

(** C3, as the code has it.  For a union with a member-type mapping that is
    not empty, [CSharpSimpleType] appends one class to [gen.Field] and stores
    its body in the cache.  When the SimpleType is not a list, the body is a
    record with one nullable field for each entry of the mapping.  The fields
    stand in the order of the sorted entries: by the type that the mapping
    gives for the member, as it is written there (the empty string when the
    mapping gives none), ascending, and among equal ones by the name of the
    member, descending.  The type of a member with no type in the mapping is
    resolved after the sort and has no part in the order, and the order in
    which the mapping is ranged over has no part in the result.  When the
    SimpleType is a list as well, the list form has precedence and the class
    is the list of its base. *)
Theorem C3_union_fields_sorted_by_mapped_type :
  forall (T : string -> string) (rangeMap : gmap string string -> list kvPair)
         (v : SimpleType.t) (gen : CodeGenerator) (c : gmap string Z),
    lawful rangeMap ->
    SimpleType.Union v = true ->
    (0 < size (SimpleType.MemberTypes v))%nat ->
    cached gen (SimpleType.Name v) = false ->
    let fieldName := (genCSharpFieldName T (SimpleType.Name v) true c).1 in
    let members := sort_Sort (map_to_list (SimpleType.MemberTypes v)) in
    let body :=
      if SimpleType.List v
      then " : List<" +:+ resolved T gen (SimpleType.Base v) +:+ lit "> {};\n"
      else
        lit "\n\t{\n"
        +:+ flatten
              (map (fun member =>
                      lit "\t\t" +:+ genCSharpFieldAttributes (key member) true
                      +:+ " public "
                      +:+ genCSharpFieldType T
                            (if String.eqb (value member) ""
                             then getBasefromSimpleType (key member) (ProtoTree gen)
                             else value member)
                      +:+ "? " +:+ normalized T (key member) +:+ lit " { get; set; }\n")
                 members)
        +:+ lit "\t}\n" in
    members ≡ₚ map_to_list (SimpleType.MemberTypes v)
    /\ StronglySorted
         (fun a b =>
            String.compare (value a) (value b) = Lt
            \/ (value a = value b /\ String.compare (key a) (key b) = Gt))
         members
    /\ Field (CSharpSimpleType T rangeMap v gen c).1 =
         Field gen +:+ genFieldComment fieldName (SimpleType.Doc v) (lit "\t//")
         +:+ genCSharpClassAttributes (SimpleType.Name v)
         +:+ lit "\tpublic partial class " +:+ fieldName +:+ body
    /\ StructAST (CSharpSimpleType T rangeMap v gen c).1 !! SimpleType.Name v = Some body.
Proof.
  intros T rangeMap v gen c Hlaw HU Hsize Hc fieldName members body.
  split; [|split].
  - subst members. unfold sort_Sort. now rewrite merge_sort_Permutation.
  - apply sort_Sort_strict.
  - subst body. destruct (SimpleType.List v) eqn:HL.
    + rewrite (CSharpSimpleType_list_emits T rangeMap v gen c HL Hc). unfold fst.
      rewrite Field_addField, Field_setStructAST, StructAST_addField, lookup_setStructAST.
      split; reflexivity.
    + rewrite (CSharpSimpleType_union_emits T rangeMap v gen c Hlaw HL HU Hsize Hc).
      unfold fst.
      rewrite Field_addField, Field_setStructAST, StructAST_addField, lookup_setStructAST.
      split; reflexivity.
Qed.

Lemma C3_witness :
  let choice :=
    SimpleType.mk "" "choice" "" false true
      (<["zipCode" := ""]> (<["count" := "int"]> (<["amount" := "int"]> ∅))) in
  let gen :=
    mkGen "schema" "" "" ∅
      [Some (PSimpleType (SimpleType.mk "" "zipCode" "string" false false ∅));
       Some (PSimpleType choice)] in
  Field (CSharpSimpleType (fun s => s) (fun m => reverse (map_to_list m)) choice gen ∅).1 =
  lit "\n\t// Choice ...\n\t[GeneratedCode(\x22xgen\x22, null)]\n\t[XmlType(\x22choice\x22)]\n\tpublic partial class Choice\n\t{\n\t\t\t[XmlElement(\x22zipCode\x22)] public string? ZipCode { get; set; }\n\t\t\t[XmlElement(\x22count\x22)] public int? Count { get; set; }\n\t\t\t[XmlElement(\x22amount\x22)] public int? Amount { get; set; }\n\t}\n".
Proof.
  intros choice gen.
  assert (Hlaw : lawful (fun m => reverse (map_to_list m))).
  { intros m. apply reverse_Permutation. }
  assert (Hsize : (0 < size (SimpleType.MemberTypes choice))%nat).
  { vm_compute. lia. }
  destruct (C3_union_fields_sorted_by_mapped_type (fun s => s) _ choice gen ∅
              Hlaw eq_refl Hsize eq_refl) as (_ & _ & H & _).
  etransitivity; [exact H|]. vm_compute. reflexivity.
Defined.

(** C3 as the specification states it fails on the union [choice] whose
    mapping gives no type for the member [zipCode], a SimpleType of the tree
    with the base [string], and the type [int] for the member [count]: in the
    class appended to [gen.Field] the field of type [string] stands before
    the field of type [int], and [int] is the smaller name. *)
Lemma C3_counterexample :
  let choice :=
    SimpleType.mk "" "choice" "" false true (<["zipCode" := ""]> (<["count" := "int"]> ∅)) in
  let gen :=
    mkGen "schema" "" "" ∅
      [Some (PSimpleType (SimpleType.mk "" "zipCode" "string" false false ∅));
       Some (PSimpleType choice)] in
  StructAST (CSharpSimpleType (fun s => s) map_to_list choice gen ∅).1 !! "choice" =
    Some (lit "\n\t{\n\t\t\t[XmlElement(\x22zipCode\x22)] public string? ZipCode { get; set; }\n\t\t\t[XmlElement(\x22count\x22)] public int? Count { get; set; }\n\t}\n")
  /\ map (fun member =>
            genCSharpFieldType (fun s => s)
              (if String.eqb (value member) ""
               then getBasefromSimpleType (key member) (ProtoTree gen) else value member))
       (toSortedPairs map_to_list (SimpleType.MemberTypes choice))
     = ["string"; "int"]
  /\ String.ltb "int" "string" = true
  /\ Field (CSharpSimpleType (fun s => s) map_to_list choice gen ∅).1 =
     lit "\n\t// Choice ...\n\t[GeneratedCode(\x22xgen\x22, null)]\n\t[XmlType(\x22choice\x22)]\n\tpublic partial class Choice\n\t{\n\t\t\t[XmlElement(\x22zipCode\x22)] public string? ZipCode { get; set; }\n\t\t\t[XmlElement(\x22count\x22)] public int? Count { get; set; }\n\t}\n".
Proof. vm_compute. repeat split. Qed.

(** ** C9: two runs *)

Lemma CSharpSimpleType_rangeMap (T : string -> string)
    (rangeMap1 rangeMap2 : gmap string string -> list kvPair) (v : SimpleType.t)
    (gen : CodeGenerator) (c : gmap string Z) :
  lawful rangeMap1 -> lawful rangeMap2 ->
  CSharpSimpleType T rangeMap1 v gen c = CSharpSimpleType T rangeMap2 v gen c.
Proof.
  intros H1 H2. unfold CSharpSimpleType.
  now rewrite (toSortedPairs_canonical rangeMap1 _ H1), (toSortedPairs_canonical rangeMap2 _ H2).
Qed.

Lemma walk_rangeMap (T : string -> string)
    (rangeMap1 rangeMap2 : gmap string string -> list kvPair)
    (tree : list (option Construct)) (gen : CodeGenerator) (c : gmap string Z) :
  lawful rangeMap1 -> lawful rangeMap2 ->
  walk T rangeMap1 tree gen c = walk T rangeMap2 tree gen c.
Proof.
  intros H1 H2. unfold walk. generalize (gen, c). clear gen c.
  induction tree as [|ele tree IH]; intros st; simpl; [reflexivity|].
  rewrite <- IH. f_equal.
  destruct ele as [[v|v|v|v|v|v]|]; simpl; try reflexivity.
  now apply CSharpSimpleType_rangeMap.
Qed.

(** C9. Two runs of [GenCSharp] on the same generator, that is the same tree,
    file and namespace, do the same: they write the same bytes, return the
    same error and leave the same state, whatever [fieldNameCount] held when
    each run began (the run replaces it by an empty map) and in whatever
    order each run ranges over the member-type mappings. *)
Theorem C9_runs_are_deterministic :
  forall (T : string -> string) (rangeMap1 rangeMap2 : gmap string string -> list kvPair)
         (os : OS) (gen : CodeGenerator) (left1 left2 : gmap string Z),
    lawful rangeMap1 ->
    lawful rangeMap2 ->
    GenCSharp T rangeMap1 os gen left1 = GenCSharp T rangeMap2 os gen left2.
Proof.
  intros T rangeMap1 rangeMap2 os gen left1 left2 H1 H2. unfold GenCSharp.
  now rewrite (walk_rangeMap T rangeMap1 rangeMap2 _ _ _ H1 H2).
Qed.

Lemma C9_witness :
  let choice :=
    SimpleType.mk "" "choice" "" false true
      (<["zipCode" := ""]> (<["count" := "int"]> (<["amount" := "int"]> ∅))) in
  let gen :=
    mkGen "schema" "orders" "" ∅
      [Some (PSimpleType choice); Some (PComplexType (ComplexType.mk "" "Choice" "" [] [] [] []))] in
  let os := mkOS (fun _ => None) (fun _ _ => None) in
  GenCSharp (fun s => s) map_to_list os gen ∅
  = GenCSharp (fun s => s) (fun m => reverse (map_to_list m)) os gen
      (<["Choice" := 7]> ∅).
Proof.
  intros choice gen os. apply C9_runs_are_deterministic.
  - intros m. reflexivity.
  - intros m. apply reverse_Permutation.
Defined.

(** ** C4: unique identifiers *)

(** The counter of [genCSharpFieldName]: the first request for an identifier
    returns it as it is, the n-th one returns it followed by n. *)
Lemma genCSharpFieldName_unique (T : string -> string) (name : string) (c : gmap string Z) :
  let fieldName := normalized T name in
  0 <= countOf c fieldName < 2 ^ 63 - 1 ->
  genCSharpFieldName T name true c =
  (if countOf c fieldName =? 0 then fieldName
   else fieldName +:+ pretty (countOf c fieldName + 1),
   <[fieldName := countOf c fieldName + 1]> c).
Proof.
  intros fieldName Hn.
  change (genCSharpFieldName T name true c) with
    (let c' := <[fieldName := wrap64 (countOf c fieldName + 1)]> c in
     let count := countOf c' fieldName in
     if negb (count =? 1) then (Sprintf "%s%d" [Str fieldName; Int count], c')
     else (fieldName, c')).
  cbv beta zeta.
  assert (Hw : wrap64 (countOf c fieldName + 1) = countOf c fieldName + 1).
  { unfold wrap64. rewrite Z.mod_small; lia. }
  rewrite Hw. unfold countOf at 1 3. rewrite lookup_insert_eq. simpl default.
  destruct (countOf c fieldName =? 0) eqn:E.
  - apply Z.eqb_eq in E. rewrite E. reflexivity.
  - apply Z.eqb_neq in E.
    replace (countOf c fieldName + 1 =? 1) with false by (symmetry; apply Z.eqb_neq; lia).
    simpl negb. cbv iota. f_equal.
    transitivity (fieldName +:+ pretty (countOf c fieldName + 1) +:+ ""); [reflexivity|].
    now rewrite append_nil_r.
Qed.

(** C4 fails in the code on the classes [foo], [Foo] and [Foo2], three
    constructs with three names.  The second identifier [Foo] becomes [Foo2];
    the counter of [Foo2] is still 0 when the third class asks for [Foo2], so
    the run declares the class [Foo2] twice. *)
Theorem C4_suffixed_identifier_is_not_reserved :
  let class name := Some (PComplexType (ComplexType.mk "" name "" [] [] [] [])) in
  let gen := mkGen "schema" "" "" ∅ [class "foo"; class "Foo"; class "Foo2"] in
  let run := GenCSharp (fun s => s) map_to_list (mkOS (fun _ => None) (fun _ _ => None)) gen ∅ in
  Field (out_gen run) =
    lit "\n\t// Foo ...\n\t[GeneratedCode(\x22xgen\x22, null)]\n\t[XmlType(\x22foo\x22)]\n\tpublic partial class Foo\n\t{\n\t}\n\n\t// Foo2 ...\n\t[GeneratedCode(\x22xgen\x22, null)]\n\t[XmlType(\x22Foo\x22)]\n\tpublic partial class Foo2\n\t{\n\t}\n\n\t// Foo2 ...\n\t[GeneratedCode(\x22xgen\x22, null)]\n\t[XmlType(\x22Foo2\x22)]\n\tpublic partial class Foo2\n\t{\n\t}\n"
  /\ (let '(n1, c1) := genCSharpFieldName (fun s => s) "foo" true ∅ in
      let '(n2, c2) := genCSharpFieldName (fun s => s) "Foo" true c1 in
      let '(n3, c3) := genCSharpFieldName (fun s => s) "Foo2" true c2 in
      [n1; n2; n3]) = ["Foo"; "Foo2"; "Foo2"].
Proof. vm_compute. split; reflexivity. Qed.

(** ** C6: the error of a run *)

(** The result of [f.Write] has no part in what [GenCSharp] returns. *)
Lemma GenCSharp_ignores_Write (T : string -> string)
    (rangeMap : gmap string string -> list kvPair) (create : string -> option string)
    (write1 write2 : string -> string -> option string)
    (gen : CodeGenerator) (c : gmap string Z) :
  GenCSharp T rangeMap (mkOS create write1) gen c
  = GenCSharp T rangeMap (mkOS create write2) gen c.
Proof. reflexivity. Qed.

(** The error that [GenCSharp] returns is the error of [os.Create]. *)
Lemma GenCSharp_err (T : string -> string) (rangeMap : gmap string string -> list kvPair)
    (os : OS) (gen : CodeGenerator) (c : gmap string Z) :
  out_err (GenCSharp T rangeMap os gen c)
  = os_Create os (File (walk T rangeMap (ProtoTree gen) gen ∅).1 +:+ ".cs").
Proof.
  unfold GenCSharp. destruct (walk T rangeMap (ProtoTree gen) gen ∅) as [gen' c'].
  cbv beta iota zeta delta [fst].
  destruct (os_Create os (File gen' +:+ ".cs")) eqn:E; simpl; congruence.
Qed.

(** A run writes to the file at most once, after the tree has been walked,
    and not at all when the file could not be created. *)
Lemma GenCSharp_trace (T : string -> string) (rangeMap : gmap string string -> list kvPair)
    (os : OS) (gen : CodeGenerator) (c : gmap string Z) :
  let run := GenCSharp T rangeMap os gen c in
  let f := File (out_gen run) +:+ ".cs" in
  match out_err run with
  | Some _ => out_trace run = [Create f]
  | None => exists data, out_trace run = [Create f; Write f data; Close f]
  end.
Proof.
  unfold GenCSharp. destruct (walk T rangeMap (ProtoTree gen) gen ∅) as [gen' c'].
  cbv beta iota zeta.
  destruct (os_Create os (File gen' +:+ ".cs")) eqn:E; simpl; [reflexivity|].
  eexists. reflexivity.
Qed.

(** C6 fails in the code when the file is created and the write to it fails:
    [GenCSharp] has made the one write, which failed, and returns nil. *)
Theorem C6_failed_write_is_not_reported :
  let os := mkOS (fun _ => None) (fun _ _ => Some "no space left on device") in
  let order := ComplexType.mk "" "order" "" [] [] [] [] in
  let gen := mkGen "order" "" "" ∅ [Some (PComplexType order)] in
  let run := GenCSharp (fun s => s) map_to_list os gen ∅ in
  let data :=
    lit "// Code generated by xgen. DO NOT EDIT.\n\nusing System.CodeDom.Compiler;\nusing System.Xml.Serialization;\n\nnamespace schema\n{\n\t// Order ...\n\t[GeneratedCode(\x22xgen\x22, null)]\n\t[XmlType(\x22order\x22)]\n\tpublic partial class Order\n\t{\n\t}\n}\n" in
  out_trace run = [Create "order.cs"; Write "order.cs" data; Close "order.cs"]
  /\ File_Write os "order.cs" data = Some "no space left on device"
  /\ out_err run = None.
Proof. vm_compute. repeat split. Qed.

(** ** The functions on concrete inputs *)

Example lit_escapes :
  lit "\t[XmlType(\x22%s\x22)]\n" =
  String tab
    ("[XmlType(" +:+ String (ascii_of_nat 34) ("%s" +:+ String (ascii_of_nat 34)
       (")]" +:+ String newline ""))).
Proof. reflexivity. Qed.

Example Split_pieces :
  Split "xs:string" ":" = ["xs"; "string"] /\ Split "" ":" = [""]
  /\ Split "a..b." "." = ["a"; ""; "b"; ""].
Proof. repeat split. Qed.

Example trimNSPrefix_cases :
  trimNSPrefix "xs:string" = "string" /\ trimNSPrefix "string" = "string"
  /\ trimNSPrefix "a:b:c" = "a:b:c".
Proof. repeat split. Qed.

Example Sprintf_verbs :
  Sprintf "%s%d" [Str "Foo"; Int 12] = "Foo12" /\ Sprintf "%d" [Int (-3)] = "-3"
  /\ Sprintf "List<%s>" [Str "int"] = "List<int>".
Proof. vm_compute. repeat split. Qed.

Example HasSuffix_cases : HasSuffix "List<int>?" "?" = true /\ HasSuffix "int" "?" = false.
Proof. split; reflexivity. Qed.

Example genCSharpFieldName_cases :
  normalized (fun s => s) "xs:foo-bar.baz" = "XsFoobarBaz"
  /\ normalized (fun s => s) "ship-to" = "Shipto"
  /\ (genCSharpFieldName (fun s => s) "ship-to" true (<["Shipto" := 2]> ∅)).1 = "Shipto3".
Proof. vm_compute. repeat split. Qed.

Example genCSharpFieldType_cases :
  genCSharpFieldType (fun s => s) "byte[]" = "byte[]"
  /\ genCSharpFieldType (fun s => s) "purchase-order.type" = "PurchaseorderType"
  /\ genCSharpFieldType (fun s => s) "" = "object".
Proof. vm_compute. repeat split. Qed.

Example getCSharpDefaultValue_cases :
  getCSharpDefaultValue "string" = lit " = \x22\x22;"
  /\ getCSharpDefaultValue "int" = ""
  /\ getCSharpDefaultValue "Address" = " = new();"
  /\ getCSharpDefaultValue "Address?" = "".
Proof. vm_compute. repeat split. Qed.

Example genFieldComment_cases :
  genFieldComment "Order" "" (lit "\t//") = lit "\n\t// Order ...\n"
  /\ genFieldComment "Order" (lit "An order.\n\tSecond line.") (lit "\t//")
     = lit "\n\t// Order is An order.\n\t// Second line.\n".
Proof. vm_compute. repeat split. Qed.

Example toSortedPairs_example :
  toSortedPairs (fun m => reverse (map_to_list m))
    (<["red" := ""]> (<["hex" := "string"]> (<["rgb" := "string"]> ∅)))
  = [("red", ""); ("rgb", "string"); ("hex", "string")].
Proof. vm_compute. reflexivity. Qed.

(** ** What every handler does to the generator *)

(** A handler either leaves the generator and the counter as they are, or it
    adds one entry to the cache, under the name of the construct, which was
    not there, and appends text to [gen.Field].  When it leaves them although
    the name is not in the cache, it does so on every generator with the same
    tree. *)
Lemma callFuncByName_shape (T : string -> string)
    (rangeMap : gmap string string -> list kvPair) (ele : Construct)
    (gen : CodeGenerator) (c : gmap string Z) :
  (cached gen (constructName ele) = true /\ callFuncByName T rangeMap ele gen c = (gen, c))
  \/ (cached gen (constructName ele) = false
      /\ callFuncByName T rangeMap ele gen c = (gen, c)
      /\ forall gen2 c2, ProtoTree gen2 = ProtoTree gen ->
           callFuncByName T rangeMap ele gen2 c2 = (gen2, c2))
  \/ (cached gen (constructName ele) = false
      /\ exists content text c',
           callFuncByName T rangeMap ele gen c
           = (addField text (setStructAST (constructName ele) content gen), c')).
Proof.
  destruct ele as [v|v|v|v|v|v]; unfold callFuncByName, constructName.
  - (* SimpleType *)
    unfold CSharpSimpleType.
    destruct (cached gen (SimpleType.Name v)) eqn:Hc.
    + left. split; [reflexivity|]. cbv beta zeta iota delta [negb].
      now destruct (SimpleType.List v),
        (SimpleType.Union v && (0 <? size (SimpleType.MemberTypes v))%nat).
    + right. cbv beta zeta iota delta [negb].
      destruct (SimpleType.List v) eqn:HL.
      { right. split; [reflexivity|].
        destruct (genCSharpFieldName T (SimpleType.Name v) true c) as [fieldName c'].
        do 3 eexists. reflexivity. }
      destruct (SimpleType.Union v && (0 <? size (SimpleType.MemberTypes v))%nat) eqn:HU.
      { right. split; [reflexivity|].
        destruct (genCSharpFieldName T (SimpleType.Name v) true c) as [fieldName c'].
        do 3 eexists. reflexivity. }
      destruct (isBuiltInCSharpType
                  (genCSharpFieldType T
                     (getBasefromSimpleType (trimNSPrefix (SimpleType.Base v))
                        (ProtoTree gen)))) eqn:HB.
      * left. split; [reflexivity|]. split; [reflexivity|].
        intros gen2 c2 Htree. rewrite Htree, HB.
        cbv beta zeta iota delta [negb].
        now destruct (cached gen2 (SimpleType.Name v)).
      * right. split; [reflexivity|].
        destruct (genCSharpFieldName T (SimpleType.Name v) true c) as [fieldName c'].
        do 3 eexists. reflexivity.
  - (* ComplexType *)
    unfold CSharpComplexType.
    destruct (cached gen (ComplexType.Name v)) eqn:Hc; [now left|].
    right. right. split; [reflexivity|]. cbv beta zeta iota delta [negb].
    destruct (genCSharpFieldName T (ComplexType.Name v) true c) as [className c'].
    do 3 eexists. reflexivity.
  - (* Group *)
    unfold CSharpGroup.
    destruct (cached gen (Group.Name v)) eqn:Hc; [now left|].
    right. right. split; [reflexivity|]. cbv beta zeta iota delta [negb].
    destruct (genCSharpFieldName T (Group.Name v) true c) as [fieldName c'].
    do 3 eexists. reflexivity.
  - (* AttributeGroup *)
    unfold CSharpAttributeGroup.
    destruct (cached gen (AttributeGroup.Name v)) eqn:Hc; [now left|].
    right. right. split; [reflexivity|]. cbv beta zeta iota delta [negb].
    destruct (genCSharpFieldName T (AttributeGroup.Name v) true c) as [className c'].
    do 3 eexists. reflexivity.
  - (* Element *)
    unfold CSharpElement.
    destruct (cached gen (Element.Name v)) eqn:Hc; [now left|].
    right. cbv beta zeta iota delta [negb].
    destruct (isBuiltInCSharpType
                (genCSharpFieldType T
                   (getBasefromSimpleType (trimNSPrefix (Element.Type_ v))
                      (ProtoTree gen)))) eqn:HB.
    + left. split; [reflexivity|]. split; [reflexivity|].
      intros gen2 c2 Htree. rewrite Htree, HB.
      cbv beta zeta iota delta [negb].
      now destruct (cached gen2 (Element.Name v)).
    + right. split; [reflexivity|].
      destruct (genCSharpFieldName T (Element.Name v) true c) as [fieldName c'].
      do 3 eexists. reflexivity.
  - (* Attribute *)
    unfold CSharpAttribute.
    destruct (cached gen (Attribute.Name v)) eqn:Hc; [now left|].
    right. cbv beta zeta iota delta [negb].
    destruct (isBuiltInCSharpType
                (genCSharpFieldType T
                   (getBasefromSimpleType (trimNSPrefix (Attribute.Type_ v))
                      (ProtoTree gen)))) eqn:HB.
    + left. split; [reflexivity|]. split; [reflexivity|].
      intros gen2 c2 Htree. rewrite Htree, HB.
      cbv beta zeta iota delta [negb].
      now destruct (cached gen2 (Attribute.Name v)).
    + right. split; [reflexivity|].
      destruct (genCSharpFieldName T (Attribute.Name v) true c) as [fieldName c'].
      do 3 eexists. reflexivity.
Qed.

Lemma cached_true (gen : CodeGenerator) (name : string) :
  cached gen name = true <-> is_Some (StructAST gen !! name).
Proof. unfold cached. apply bool_decide_eq_true. Qed.

(** A construct whose name is in the cache is not processed again: its
    handler, whichever of the six it is, changes neither the generator nor
    the counter. *)
Lemma callFuncByName_cached :
  forall (T : string -> string) (rangeMap : gmap string string -> list kvPair)
         (ele : Construct) (gen : CodeGenerator) (c : gmap string Z),
    cached gen (constructName ele) = true ->
    callFuncByName T rangeMap ele gen c = (gen, c).
Proof.
  intros T rangeMap ele gen c Hc.
  destruct (callFuncByName_shape T rangeMap ele gen c)
    as [[_ H]|[[Hn _]|[Hn _]]]; [exact H|congruence|congruence].
Qed.

Lemma walk_cons (T : string -> string) (rangeMap : gmap string string -> list kvPair)
    (ele : option Construct) (tree : list (option Construct))
    (gen : CodeGenerator) (c : gmap string Z) :
  walk T rangeMap (ele :: tree) gen c
  = walk T rangeMap tree (step T rangeMap (gen, c) ele).1 (step T rangeMap (gen, c) ele).2.
Proof.
  unfold walk, step. destruct ele as [ele|]; cbn [fold_left fst snd]; [|reflexivity].
  now destruct (callFuncByName T rangeMap ele gen c).
Qed.

(** A property of the generator that every handler keeps is kept by the
    walk. *)
Lemma walk_invariant (T : string -> string) (rangeMap : gmap string string -> list kvPair)
    (P : CodeGenerator -> Prop) :
  (forall ele gen c, P gen -> P (callFuncByName T rangeMap ele gen c).1) ->
  forall tree gen c, P gen -> P (walk T rangeMap tree gen c).1.
Proof.
  intros Hstep tree. induction tree as [|ele tree IH]; intros gen c HP; [exact HP|].
  rewrite walk_cons. apply IH. destruct ele as [ele|]; simpl; [now apply Hstep | exact HP].
Qed.

Lemma callFuncByName_frame (T : string -> string)
    (rangeMap : gmap string string -> list kvPair) (ele : Construct)
    (gen : CodeGenerator) (c : gmap string Z) :
  let gen' := (callFuncByName T rangeMap ele gen c).1 in
  File gen' = File gen /\ Package gen' = Package gen /\ ProtoTree gen' = ProtoTree gen.
Proof.
  destruct (callFuncByName_shape T rangeMap ele gen c)
    as [[_ H]|[(_ & H & _)|(_ & content & text & c' & H)]]; rewrite H; now repeat split.
Qed.

Lemma callFuncByName_keeps_entries (T : string -> string)
    (rangeMap : gmap string string -> list kvPair) (ele : Construct)
    (gen : CodeGenerator) (c : gmap string Z) (name content : string) :
  StructAST gen !! name = Some content ->
  StructAST (callFuncByName T rangeMap ele gen c).1 !! name = Some content.
Proof.
  intros Hin.
  destruct (callFuncByName_shape T rangeMap ele gen c)
    as [[_ H]|[(_ & H & _)|(Hn & content' & text & c' & H)]]; rewrite H; try exact Hin.
  unfold fst. rewrite StructAST_addField, lookup_setStructAST_ne; [exact Hin|].
  intros Heq. apply cached_false in Hn. congruence.
Qed.

Lemma callFuncByName_appends (T : string -> string)
    (rangeMap : gmap string string -> list kvPair) (ele : Construct)
    (gen : CodeGenerator) (c : gmap string Z) :
  exists text, Field (callFuncByName T rangeMap ele gen c).1 = Field gen +:+ text.
Proof.
  destruct (callFuncByName_shape T rangeMap ele gen c)
    as [[_ H]|[(_ & H & _)|(_ & content & text & c' & H)]]; rewrite H.
  - exists "". now rewrite append_nil_r.
  - exists "". now rewrite append_nil_r.
  - exists text. reflexivity.
Qed.

(** The walk reads the file name, the namespace and the tree of the
    generator and never changes them. *)
Lemma walk_frame :
  forall (T : string -> string) (rangeMap : gmap string string -> list kvPair)
         (tree : list (option Construct)) (gen : CodeGenerator) (c : gmap string Z),
    let gen' := (walk T rangeMap tree gen c).1 in
    File gen' = File gen /\ Package gen' = Package gen /\ ProtoTree gen' = ProtoTree gen.
Proof.
  intros T rangeMap tree gen c.
  apply (walk_invariant T rangeMap
           (fun g => File g = File gen /\ Package g = Package gen
                     /\ ProtoTree g = ProtoTree gen)); [|now repeat split].
  intros ele g c0 (HF & HP & HT).
  destruct (callFuncByName_frame T rangeMap ele g c0) as (HF' & HP' & HT').
  repeat split; congruence.
Qed.

(** An entry of the cache is never overwritten and never removed: what is
    stored under a name when the walk begins, or at any point of it, is
    stored under that name when the walk ends. *)
Theorem walk_keeps_cache_entries :
  forall (T : string -> string) (rangeMap : gmap string string -> list kvPair)
         (tree : list (option Construct)) (gen : CodeGenerator) (c : gmap string Z)
         (name content : string),
    StructAST gen !! name = Some content ->
    StructAST (walk T rangeMap tree gen c).1 !! name = Some content.
Proof.
  intros T rangeMap tree gen c name content Hin.
  apply (walk_invariant T rangeMap (fun g => StructAST g !! name = Some content));
    [|exact Hin].
  intros ele g c0 Hg. now apply callFuncByName_keeps_entries.
Qed.

Lemma walk_keeps_cache_entries_witness :
  let order := ComplexType.mk "" "order" "" [] [] [] [] in
  let item := ComplexType.mk "" "item" "" [] [] [] [] in
  let gen := mkGen "schema" "" "" (<["order" := "kept"]> ∅) [] in
  StructAST
    (walk (fun s => s) map_to_list [Some (PComplexType order); None; Some (PComplexType item)]
       gen ∅).1 !! "order" = Some "kept".
Proof. intros order item gen. apply walk_keeps_cache_entries. reflexivity. Defined.

(** Text that has been emitted stays: the walk only appends to
    [gen.Field]. *)
Theorem walk_only_appends :
  forall (T : string -> string) (rangeMap : gmap string string -> list kvPair)
         (tree : list (option Construct)) (gen : CodeGenerator) (c : gmap string Z),
    exists text, Field (walk T rangeMap tree gen c).1 = Field gen +:+ text.
Proof.
  intros T rangeMap tree gen c.
  apply (walk_invariant T rangeMap (fun g => exists text, Field g = Field gen +:+ text)).
  - intros ele g c0 [text Hg].
    destruct (callFuncByName_appends T rangeMap ele g c0) as [text' H].
    exists (text +:+ text'). now rewrite H, Hg, append_assoc.
  - exists "". now rewrite append_nil_r.
Qed.

(** ** A second walk *)

Lemma callFuncByName_settles (T : string -> string)
    (rangeMap : gmap string string -> list kvPair) (ele : Construct)
    (gen : CodeGenerator) (c : gmap string Z) :
  settled T rangeMap ele (callFuncByName T rangeMap ele gen c).1.
Proof.
  destruct (callFuncByName_shape T rangeMap ele gen c)
    as [[Hc H]|[(_ & H & Hall)|(_ & content & text & c' & H)]]; rewrite H; unfold fst.
  - now left.
  - now right.
  - left. apply cached_true. rewrite StructAST_addField, lookup_setStructAST. now eexists.
Qed.

Lemma settled_callFuncByName (T : string -> string)
    (rangeMap : gmap string string -> list kvPair) (ele ele' : Construct)
    (gen : CodeGenerator) (c : gmap string Z) :
  settled T rangeMap ele gen ->
  settled T rangeMap ele (callFuncByName T rangeMap ele' gen c).1.
Proof.
  intros [Hc|Hall].
  - left. apply cached_true. apply cached_true in Hc as [content Hc].
    exists content. now apply callFuncByName_keeps_entries.
  - right. intros gen2 c2 Htree. apply Hall.
    destruct (callFuncByName_frame T rangeMap ele' gen c) as (_ & _ & HT). congruence.
Qed.

Lemma walk_settles (T : string -> string) (rangeMap : gmap string string -> list kvPair)
    (tree : list (option Construct)) (gen : CodeGenerator) (c : gmap string Z)
    (ele : Construct) :
  Some ele ∈ tree -> settled T rangeMap ele (walk T rangeMap tree gen c).1.
Proof.
  revert gen c. induction tree as [|e tree IH]; intros gen c Hin; [inversion Hin|].
  rewrite walk_cons. apply elem_of_cons in Hin as [Heq|Hin]; [|now apply IH].
  subst e. unfold step, fst, snd.
  apply (walk_invariant T rangeMap (settled T rangeMap ele)).
  - intros ele' g c0. apply settled_callFuncByName.
  - apply callFuncByName_settles.
Qed.

Lemma settled_skipped (T : string -> string) (rangeMap : gmap string string -> list kvPair)
    (ele : Construct) (gen : CodeGenerator) (c : gmap string Z) :
  settled T rangeMap ele gen -> callFuncByName T rangeMap ele gen c = (gen, c).
Proof.
  intros [Hc|Hall]; [now apply callFuncByName_cached | now apply Hall].
Qed.

Lemma walk_of_settled (T : string -> string) (rangeMap : gmap string string -> list kvPair)
    (tree : list (option Construct)) (gen : CodeGenerator) (c : gmap string Z) :
  (forall ele, Some ele ∈ tree -> settled T rangeMap ele gen) ->
  walk T rangeMap tree gen c = (gen, c).
Proof.
  induction tree as [|e tree IH]; intros Hall; [reflexivity|].
  rewrite walk_cons.
  assert (Hstep : step T rangeMap (gen, c) e = (gen, c)).
  { destruct e as [ele|]; [|reflexivity]. unfold step, fst, snd.
    apply settled_skipped, Hall, list_elem_of_here. }
  rewrite Hstep. apply IH. intros ele Hin. apply Hall. now apply list_elem_of_further.
Qed.

(** Walking a tree a second time, with the generator that the first walk
    left, changes nothing, whatever the counter holds: every construct of the
    tree is in the cache by then or is one for which nothing is emitted. *)
Lemma walk_again :
  forall (T : string -> string) (rangeMap : gmap string string -> list kvPair)
         (tree : list (option Construct)) (gen : CodeGenerator) (c c2 : gmap string Z),
    let gen1 := (walk T rangeMap tree gen c).1 in
    walk T rangeMap tree gen1 c2 = (gen1, c2).
Proof.
  intros T rangeMap tree gen c c2 gen1. apply walk_of_settled.
  intros ele Hin. now apply walk_settles.
Qed.

(** [GenCSharp] called again on the generator that a run has left writes the
    same bytes to the same file and leaves the generator as it is: no
    declaration is emitted twice. *)
Theorem GenCSharp_again_writes_the_same :
  forall (T : string -> string) (rangeMap : gmap string string -> list kvPair)
         (os : OS) (gen : CodeGenerator) (c c2 : gmap string Z),
    let run1 := GenCSharp T rangeMap os gen c in
    let run2 := GenCSharp T rangeMap os (out_gen run1) c2 in
    out_gen run2 = out_gen run1
    /\ out_trace run2 = out_trace run1
    /\ out_err run2 = out_err run1.
Proof.
  intros T rangeMap os gen c c2.
  assert (Hgen : forall run, run = GenCSharp T rangeMap os gen c ->
            out_gen run = (walk T rangeMap (ProtoTree gen) gen ∅).1).
  { intros run ->. unfold GenCSharp.
    destruct (walk T rangeMap (ProtoTree gen) gen ∅) as [g1 c1].
    now destruct (os_Create os (File g1 +:+ ".cs")). }
  intros run1 run2. subst run2. rewrite (Hgen run1 eq_refl). subst run1.
  destruct (walk_frame T rangeMap (ProtoTree gen) gen ∅) as (HF & HP & HT).
  unfold GenCSharp at 1 2 4. rewrite HT.
  rewrite (walk_again T rangeMap (ProtoTree gen) gen ∅ ∅).
  unfold GenCSharp.
  destruct (walk T rangeMap (ProtoTree gen) gen ∅) as [g1 c1]. unfold fst.
  now destruct (os_Create os (File g1 +:+ ".cs")).
Qed.

(** ** The cache and the output buffer *)

(** A construct whose name is in the cache is not processed again: its
    handler, whichever of the six it is, changes neither the generator nor
    the counter. *)
Theorem cached_construct_is_skipped :
  forall (T : string -> string) (rangeMap : gmap string string -> list kvPair)
         (ele : Construct) (gen : CodeGenerator) (c : gmap string Z),
    cached gen (constructName ele) = true ->
    callFuncByName T rangeMap ele gen c = (gen, c).
Proof. exact callFuncByName_cached. Qed.

Lemma cached_construct_is_skipped_witness :
  let order := ComplexType.mk "" "order" "" [] [] [] [] in
  let gen := mkGen "schema" "" "// kept" (<["order" := "{}"]> ∅) [Some (PComplexType order)] in
  callFuncByName (fun s => s) map_to_list (PElement (Element.mk "" "order" "orderType" false false))
    gen ∅ = (gen, ∅).
Proof. intros order gen. apply cached_construct_is_skipped. reflexivity. Defined.

(** The walk reads the file name, the namespace and the tree of the
    generator and never changes them. *)
Theorem walk_keeps_configuration :
  forall (T : string -> string) (rangeMap : gmap string string -> list kvPair)
         (tree : list (option Construct)) (gen : CodeGenerator) (c : gmap string Z),
    let gen' := (walk T rangeMap tree gen c).1 in
    File gen' = File gen /\ Package gen' = Package gen /\ ProtoTree gen' = ProtoTree gen.
Proof. exact walk_frame. Qed.

(** Walking a tree a second time, with the generator that the first walk
    left, changes nothing, whatever the counter holds: every construct of the
    tree is in the cache by then or is one for which nothing is emitted. *)
Theorem second_walk_changes_nothing :
  forall (T : string -> string) (rangeMap : gmap string string -> list kvPair)
         (tree : list (option Construct)) (gen : CodeGenerator) (c c2 : gmap string Z),
    let gen1 := (walk T rangeMap tree gen c).1 in
    walk T rangeMap tree gen1 c2 = (gen1, c2).
Proof. exact walk_again. Qed.

(** ** What a run writes *)

(** [GenCSharp] creates the file whose name is [gen.File] followed by [.cs],
    whatever the tree holds, and returns the error of [os.Create].  When the
    file is created, the run writes to it once: the copyright line, the
    [using] lines and the namespace, which is [schema] when [gen.Package] is
    empty, around the text that [gen.Field] holds after the walk. *)
Theorem GenCSharp_writes_the_unit :
  forall (T : string -> string) (rangeMap : gmap string string -> list kvPair)
         (os : OS) (gen : CodeGenerator) (c : gmap string Z),
    let f := File gen +:+ ".cs" in
    let ns := if String.eqb (Package gen) "" then "schema" else Package gen in
    let declarations := Field (walk T rangeMap (ProtoTree gen) gen ∅).1 in
    let run := GenCSharp T rangeMap os gen c in
    out_err run = os_Create os f
    /\ out_trace run =
       match os_Create os f with
       | Some _ => [Create f]
       | None =>
           [Create f;
            Write f (copyright +:+ lit "\n\n" +:+ using_ +:+ lit "\nnamespace " +:+ ns
                     +:+ lit "\n{" +:+ declarations +:+ lit "}\n");
            Close f]
       end.
Proof.
  intros T rangeMap os gen c f ns declarations run. subst run declarations.
  destruct (walk_frame T rangeMap (ProtoTree gen) gen ∅) as (HF & HP & _).
  unfold GenCSharp.
  destruct (walk T rangeMap (ProtoTree gen) gen ∅) as [g1 c1]. unfold fst in *.
  rewrite HF, HP. fold f. fold ns.
  destruct (os_Create os f); split; reflexivity.
Qed.

(** ** Constructs for which nothing is emitted *)

Lemma passThrough_skipped (T : string -> string)
    (rangeMap : gmap string string -> list kvPair) (ele : Construct)
    (gen : CodeGenerator) (c : gmap string Z) :
  passThrough T gen ele = true -> callFuncByName T rangeMap ele gen c = (gen, c).
Proof.
  destruct ele as [v|v|v|v|v|v]; unfold passThrough, callFuncByName, resolved;
    intros H; try discriminate.
  - apply andb_prop in H as [H HB]. apply andb_prop in H as [HL HU].
    apply negb_true_iff in HL, HU.
    unfold CSharpSimpleType. rewrite HL, HU, HB. cbv beta zeta iota delta [negb].
    now destruct (cached gen (SimpleType.Name v)).
  - unfold CSharpElement. rewrite H. cbv beta zeta iota delta [negb].
    now destruct (cached gen (Element.Name v)).
  - unfold CSharpAttribute. rewrite H. cbv beta zeta iota delta [negb].
    now destruct (cached gen (Attribute.Name v)).
Qed.

(** After its handler has returned, a construct is in the cache exactly when
    it was there before or is not one of the constructs of built-in type for
    which nothing is emitted.  Those are never registered, and every other
    construct is, at its first processing. *)
Theorem construct_registered_iff :
  forall (T : string -> string) (rangeMap : gmap string string -> list kvPair)
         (ele : Construct) (gen : CodeGenerator) (c : gmap string Z),
    cached (callFuncByName T rangeMap ele gen c).1 (constructName ele) = true
    <-> cached gen (constructName ele) = true \/ passThrough T gen ele = false.
Proof.
  intros T rangeMap ele gen c.
  destruct (cached gen (constructName ele)) eqn:Hc.
  { rewrite (callFuncByName_cached T rangeMap ele gen c Hc). unfold fst.
    rewrite Hc. split; [now left | reflexivity]. }
  destruct (passThrough T gen ele) eqn:HP.
  { rewrite (passThrough_skipped T rangeMap ele gen c HP). unfold fst.
    rewrite Hc. split; [discriminate | intros [?|?]; discriminate]. }
  split; [now right | intros _].
  destruct (callFuncByName_shape T rangeMap ele gen c)
    as [[Hc' _]|[(_ & H & Hall)|(_ & content & text & c' & H)]]; [congruence| |].
  - exfalso. clear H.
    destruct ele as [v|v|v|v|v|v]; unfold passThrough, resolved in HP;
      unfold constructName in Hc; specialize (Hall gen c eq_refl);
      unfold callFuncByName in Hall.
    + unfold CSharpSimpleType in Hall. rewrite Hc in Hall.
      cbv beta zeta iota delta [negb] in Hall.
      destruct (SimpleType.List v).
      { destruct (genCSharpFieldName T (SimpleType.Name v) true c).
        apply (f_equal (fun st => cached st.1 (SimpleType.Name v))) in Hall.
        unfold fst in Hall. rewrite Hc in Hall. apply cached_false in Hall.
        rewrite StructAST_addField, lookup_setStructAST in Hall. discriminate. }
      destruct (SimpleType.Union v && (0 <? size (SimpleType.MemberTypes v))%nat).
      { destruct (genCSharpFieldName T (SimpleType.Name v) true c).
        apply (f_equal (fun st => cached st.1 (SimpleType.Name v))) in Hall.
        unfold fst in Hall. rewrite Hc in Hall. apply cached_false in Hall.
        rewrite StructAST_addField, lookup_setStructAST in Hall. discriminate. }
      simpl in HP. rewrite HP in Hall.
      destruct (genCSharpFieldName T (SimpleType.Name v) true c).
      apply (f_equal (fun st => cached st.1 (SimpleType.Name v))) in Hall.
      unfold fst in Hall. rewrite Hc in Hall. apply cached_false in Hall.
      rewrite StructAST_addField, lookup_setStructAST in Hall. discriminate.
    + unfold CSharpComplexType in Hall. rewrite Hc in Hall.
      cbv beta zeta iota delta [negb] in Hall.
      destruct (genCSharpFieldName T (ComplexType.Name v) true c).
      apply (f_equal (fun st => cached st.1 (ComplexType.Name v))) in Hall.
      unfold fst in Hall. rewrite Hc in Hall. apply cached_false in Hall.
      rewrite StructAST_addField, lookup_setStructAST in Hall. discriminate.
    + unfold CSharpGroup in Hall. rewrite Hc in Hall.
      cbv beta zeta iota delta [negb] in Hall.
      destruct (genCSharpFieldName T (Group.Name v) true c).
      apply (f_equal (fun st => cached st.1 (Group.Name v))) in Hall.
      unfold fst in Hall. rewrite Hc in Hall. apply cached_false in Hall.
      rewrite StructAST_addField, lookup_setStructAST in Hall. discriminate.
    + unfold CSharpAttributeGroup in Hall. rewrite Hc in Hall.
      cbv beta zeta iota delta [negb] in Hall.
      destruct (genCSharpFieldName T (AttributeGroup.Name v) true c).
      apply (f_equal (fun st => cached st.1 (AttributeGroup.Name v))) in Hall.
      unfold fst in Hall. rewrite Hc in Hall. apply cached_false in Hall.
      rewrite StructAST_addField, lookup_setStructAST in Hall. discriminate.
    + unfold CSharpElement in Hall. rewrite Hc, HP in Hall.
      cbv beta zeta iota delta [negb] in Hall.
      destruct (genCSharpFieldName T (Element.Name v) true c).
      apply (f_equal (fun st => cached st.1 (Element.Name v))) in Hall.
      unfold fst in Hall. rewrite Hc in Hall. apply cached_false in Hall.
      rewrite StructAST_addField, lookup_setStructAST in Hall. discriminate.
    + unfold CSharpAttribute in Hall. rewrite Hc, HP in Hall.
      cbv beta zeta iota delta [negb] in Hall.
      destruct (genCSharpFieldName T (Attribute.Name v) true c).
      apply (f_equal (fun st => cached st.1 (Attribute.Name v))) in Hall.
      unfold fst in Hall. rewrite Hc in Hall. apply cached_false in Hall.
      rewrite StructAST_addField, lookup_setStructAST in Hall. discriminate.
  - rewrite H. unfold fst. apply cached_true.
    rewrite StructAST_addField, lookup_setStructAST. now eexists.
Qed.

Lemma walk_of_skipped (T : string -> string) (rangeMap : gmap string string -> list kvPair)
    (tree : list (option Construct)) (gen : CodeGenerator) (c : gmap string Z) :
  (forall ele, Some ele ∈ tree -> passThrough T gen ele = true) ->
  walk T rangeMap tree gen c = (gen, c).
Proof.
  intros Hall. apply walk_of_settled. intros ele Hin. right.
  intros gen2 c2 Htree. apply passThrough_skipped.
  specialize (Hall ele Hin).
  destruct ele as [v|v|v|v|v|v]; unfold passThrough, resolved in *;
    rewrite ?Htree; exact Hall.
Qed.

(** A schema that holds nothing but elements and attributes of built-in type
    and scalar simple types over built-in types yields no declaration: the
    walk leaves the generator and the counter as it found them. *)
Theorem builtin_constructs_need_no_declaration :
  forall (T : string -> string) (rangeMap : gmap string string -> list kvPair)
         (tree : list (option Construct)) (gen : CodeGenerator) (c : gmap string Z),
    (forall ele, Some ele ∈ tree -> passThrough T gen ele = true) ->
    walk T rangeMap tree gen c = (gen, c).
Proof. exact walk_of_skipped. Qed.

Lemma builtin_constructs_need_no_declaration_witness :
  let tree :=
    [Some (PElement (Element.mk "" "comment" "string" false true));
     Some (PSimpleType (SimpleType.mk "" "quantity" "int" false false ∅));
     None;
     Some (PAttribute (Attribute.mk "partNum" "" "quantity" true false))] in
  let gen := mkGen "schema" "" "" ∅ tree in
  walk (fun s => s) map_to_list tree gen ∅ = (gen, ∅).
Proof.
  intros tree gen. apply builtin_constructs_need_no_declaration.
  intros ele Hin.
  repeat (apply elem_of_cons in Hin as [Hin|Hin];
          [first [discriminate Hin | injection Hin as ->; reflexivity]|]).
  inversion Hin.
Defined.

(** ** Requests for a unique identifier *)

Lemma pretty_N_go_length (x : N) (s : string) :
  (String.length s <= String.length (pretty_N_go x s))%nat.
Proof.
  revert s. induction (N.lt_wf_0 x) as [x _ IH]; intros s.
  destruct (decide (x = 0%N)) as [->|Hx]; [now rewrite pretty_N_go_0|].
  rewrite pretty_N_go_step by lia.
  etransitivity; [|apply IH; apply N.div_lt; lia]. simpl. lia.
Qed.

Lemma pretty_Z_nonempty (z : Z) : pretty z <> "".
Proof.
  assert (HN : forall p : positive, pretty p <> "").
  { intros p H. unfold pretty, pretty_positive, pretty, pretty_N in H.
    destruct (decide (N.pos p = 0%N)) as [?|_]; [discriminate|].
    rewrite pretty_N_go_step in H by lia.
    pose proof (pretty_N_go_length (N.pos p `div` 10)
                  (String (pretty_N_char (N.pos p `mod` 10)) "")) as Hlen.
    rewrite H in Hlen. simpl in Hlen. lia. }
  destruct z as [|p|p]; unfold pretty, pretty_Z.
  - discriminate.
  - apply HN.
  - discriminate.
Qed.

Lemma requests_from (T : string -> string) (name : string) (n k : nat)
    (c : gmap string Z) :
  countOf c (normalized T name) = Z.of_nat k ->
  Z.of_nat (k + n) < 2 ^ 63 ->
  requests T name n c =
  map (fun i : nat =>
         if (i =? 1)%nat then normalized T name
         else normalized T name +:+ pretty (Z.of_nat i))
    (seq (S k) n).
Proof.
  revert k c. induction n as [|n IH]; intros k c Hk Hn; [reflexivity|].
  cbn [requests seq map].
  rewrite genCSharpFieldName_unique by (rewrite Hk; lia).
  rewrite Hk. f_equal.
  - destruct k as [|k]; [reflexivity|].
    replace (Z.of_nat (S k) =? 0) with false by (symmetry; apply Z.eqb_neq; lia).
    cbn [Nat.eqb]. destruct k; do 2 f_equal; lia.
  - apply IH; [|lia].
    unfold countOf. rewrite lookup_insert_eq. simpl. lia.
Qed.

(** Requests in a row for a unique identifier of one name, on a counter
    that has not seen the identifier, receive the identifier, then the
    identifier followed by 2, by 3 and so on, and no two of them receive the
    same. *)
Theorem repeated_requests_are_numbered :
  forall (T : string -> string) (name : string) (n : nat) (c : gmap string Z),
    c !! normalized T name = None ->
    Z.of_nat n < 2 ^ 63 ->
    requests T name n c =
    map (fun i : nat =>
           if (i =? 1)%nat then normalized T name
           else normalized T name +:+ pretty (Z.of_nat i))
      (seq 1 n)
    /\ NoDup (requests T name n c).
Proof.
  intros T name n c Hc Hn.
  assert (Heq := requests_from T name n 0 c).
  unfold countOf in Heq. rewrite Hc in Heq. specialize (Heq eq_refl Hn).
  split; [exact Heq|]. rewrite Heq.
  apply (NoDup_fmap_2_strong _ (seq 1 n)); [|apply NoDup_seq].
  intros i j Hi Hj. apply elem_of_seq in Hi, Hj.
  destruct (i =? 1)%nat eqn:Ei, (j =? 1)%nat eqn:Ej;
    try apply Nat.eqb_eq in Ei; try apply Nat.eqb_eq in Ej; intros H.
  - congruence.
  - symmetry in H. apply append_neq_self in H; [contradiction|apply pretty_Z_nonempty].
  - apply append_neq_self in H; [contradiction|apply pretty_Z_nonempty].
  - apply String.app_inj in H. apply pretty_Z_inj in H. lia.
Qed.

Lemma repeated_requests_are_numbered_witness :
  requests (fun s => s) "purchase-order" 3 (<["Item" := 4]> ∅)
  = ["Purchaseorder"; "Purchaseorder2"; "Purchaseorder3"].
Proof.
  assert (Hc : (<["Item" := 4]> ∅ : gmap string Z)
               !! normalized (fun s => s) "purchase-order" = None).
  { vm_compute. reflexivity. }
  assert (Hn : Z.of_nat 3 < 2 ^ 63) by reflexivity.
  destruct (repeated_requests_are_numbered (fun s => s) "purchase-order" 3 _ Hc Hn)
    as [H _].
  etransitivity; [exact H|]. vm_compute. reflexivity.
Defined.

(** ** The names of C# types *)

(** [genCSharpFieldType] never returns the empty string: a reference that
    leaves nothing once the hyphens are removed, the empty reference among
    them, becomes [object].  A built-in type of C# is returned as it is. *)
Theorem genCSharpFieldType_is_a_name :
  forall (T : string -> string) (name : string),
    genCSharpFieldType T name <> ""
    /\ (isBuiltInCSharpType name = true -> genCSharpFieldType T name = name).
Proof.
  intros T name. unfold genCSharpFieldType, isBuiltInCSharpType.
  destruct (bool_decide (is_Some (csharpBuildInType !! name))) eqn:HB.
  - split; [|reflexivity]. intros ->. vm_compute in HB. discriminate.
  - split; [|discriminate]. cbv zeta.
    destruct (String.eqb _ "") eqn:E; [discriminate|].
    now apply String.eqb_neq in E.
Qed.

Lemma genCSharpFieldType_is_a_name_witness :
  genCSharpFieldType (fun s => s) "-" = "object"
  /\ genCSharpFieldType (fun s => s) "List<string>" = "List<string>".
Proof.
  split.
  - vm_compute. reflexivity.
  - apply genCSharpFieldType_is_a_name. reflexivity.
Defined.

(** ** [Less] as an order *)

Lemma Less_sortOrder (a b : kvPair) : Less a b = true <-> ~ sortOrder b a.
Proof. unfold sortOrder. destruct (Less a b); split; congruence. Qed.

(** [kvPairList.Less] is a strict total order on the pairs: no pair is less
    than itself, the relation is transitive, and of two different pairs
    exactly one is less than the other.  It is what [sort.Sort] needs for its
    result to be determined. *)
Theorem Less_is_a_strict_total_order :
  (forall a, Less a a = false)
  /\ (forall a b c, Less a b = true -> Less b c = true -> Less a c = true)
  /\ (forall a b, Less a b = true -> Less b a = false)
  /\ (forall a b, a <> b -> Less a b = true \/ Less b a = true).
Proof.
  repeat split.
  - intros a. apply not_true_iff_false. rewrite Less_sortOrder.
    intros H. apply H. destruct (sortOrder_total a a); assumption.
  - intros a b c Hab Hbc. apply Less_sortOrder. apply Less_sortOrder in Hab, Hbc.
    intros Hca. destruct (sortOrder_total b c) as [H|H]; [|contradiction].
    apply Hab. now transitivity c.
  - intros a b Hab. apply not_true_iff_false. intros Hba.
    apply Less_sortOrder in Hab, Hba.
    destruct (sortOrder_total a b); contradiction.
  - intros a b Hne.
    destruct (Less a b) eqn:Hab; [now left|right].
    destruct (Less b a) eqn:Hba; [reflexivity|exfalso].
    apply Hne. now apply (sortOrder_antisymm a b).
Qed.

(** ** The first entry of the tree decides *)

Lemma getBasefromSimpleType_cons (name : string) (ele : option Construct)
    (tree : list (option Construct)) :
  getBasefromSimpleType name (ele :: tree)
  = match underlying name ele with
    | Some base => base
    | None => getBasefromSimpleType name tree
    end.
Proof.
  destruct ele as [[v|v|v|v|v|v]|]; simpl; try reflexivity.
  - now destruct (negb (SimpleType.List v) && negb (SimpleType.Union v)
                  && String.eqb (SimpleType.Name v) name).
  - now destruct (String.eqb (Element.Name v) name).
  - now destruct (String.eqb (Attribute.Name v) name).
Qed.

(** [getBasefromSimpleType] answers with the first entry of the tree that
    is a scalar SimpleType, an Element or an Attribute of the name: the
    entries after it have no part in the result, nor have the entries before
    it, which are of another name or are complex types, groups, attribute
    groups, lists, unions or nil.  The type found is returned as it is and is
    not looked up again. *)
Theorem getBasefromSimpleType_first_match :
  forall (name base : string) (before after : list (option Construct))
         (ele : option Construct),
    Forall (fun e => underlying name e = None) before ->
    underlying name ele = Some base ->
    getBasefromSimpleType name (before ++ ele :: after) = base.
Proof.
  intros name base before after ele Hbefore Hele.
  induction Hbefore as [|e before He _ IH]; simpl app.
  - now rewrite getBasefromSimpleType_cons, Hele.
  - now rewrite getBasefromSimpleType_cons, He.
Qed.

Lemma getBasefromSimpleType_first_match_witness :
  getBasefromSimpleType "amount"
    [Some (PComplexType (ComplexType.mk "" "amount" "decimal" [] [] [] []));
     Some (PSimpleType (SimpleType.mk "" "amount" "money" true false ∅));
     None;
     Some (PElement (Element.mk "" "amount" "money" false false));
     Some (PSimpleType (SimpleType.mk "" "money" "decimal" false false ∅));
     Some (PAttribute (Attribute.mk "amount" "" "string" false false))]
  = "money".
Proof.
  apply (getBasefromSimpleType_first_match "amount" "money"
           [Some (PComplexType (ComplexType.mk "" "amount" "decimal" [] [] [] []));
            Some (PSimpleType (SimpleType.mk "" "amount" "money" true false ∅));
            None]).
  - repeat constructor.
  - reflexivity.
Defined.

(** ** Namespace prefixes *)

Lemma countByte_append (c : ascii) (a b : string) :
  countByte c (a +:+ b) = (countByte c a + countByte c b)%nat.
Proof.
  induction a as [|x a IH]; [reflexivity|].
  rewrite append_cons. simpl. rewrite IH. lia.
Qed.

Lemma length_Split (s : string) (sep : ascii) :
  length (Split s sep) = S (countByte sep s).
Proof.
  induction s as [|x s IH]; [reflexivity|]. simpl.
  destruct (Ascii.eqb x sep); simpl; [now rewrite IH|].
  destruct (Split s sep) as [|p ps]; [discriminate|exact IH].
Qed.

Lemma Split_absent (s : string) (sep : ascii) :
  countByte sep s = O -> Split s sep = [s].
Proof.
  induction s as [|x s IH]; [reflexivity|]. simpl.
  destruct (Ascii.eqb x sep); [discriminate|]. simpl. intros H. now rewrite IH.
Qed.

Lemma Split_one (s a : string) (sep : ascii) :
  Split s sep = [a] -> s = a /\ countByte sep a = O.
Proof.
  intros H. assert (Hc : countByte sep s = O).
  { pose proof (length_Split s sep) as Hl. rewrite H in Hl. simpl in Hl. lia. }
  rewrite (Split_absent s sep Hc) in H. injection H as <-. now split.
Qed.

Lemma Split_two (s a b : string) (sep : ascii) :
  Split s sep = [a; b] ->
  s = a +:+ String sep b /\ countByte sep a = O /\ countByte sep b = O.
Proof.
  revert a. induction s as [|x s IH]; intros a; [discriminate|]. simpl.
  destruct (Ascii.eqb x sep) eqn:E.
  - apply Ascii.eqb_eq in E. subst x. intros [= <- H].
    apply Split_one in H as [-> H]. now repeat split.
  - destruct (Split s sep) as [|p ps] eqn:Es; [discriminate|].
    intros [= <- ->]. destruct (IH p eq_refl) as (-> & Hp & Hb).
    repeat split; [|exact Hb]. simpl. now rewrite E.
Qed.

(** A name with one colon is its prefix, the colon and its local name:
    [getNSPrefix] returns the first and [trimNSPrefix] the second, and
    neither holds a colon.  A name with no colon, or with more than one, has
    the prefix [""] and is returned whole by [trimNSPrefix]. *)
Theorem namespace_prefix_and_local_name :
  forall str : string,
    if (countByte ":" str =? 1)%nat
    then str = getNSPrefix str +:+ ":" +:+ trimNSPrefix str
         /\ countByte ":" (getNSPrefix str) = O
         /\ countByte ":" (trimNSPrefix str) = O
    else getNSPrefix str = "" /\ trimNSPrefix str = str.
Proof.
  intros str. pose proof (length_Split str ":") as Hl.
  unfold getNSPrefix, trimNSPrefix.
  destruct (countByte ":" str =? 1)%nat eqn:E.
  - apply Nat.eqb_eq in E. rewrite E in Hl.
    destruct (Split str ":") as [|a [|b [|? ?]]] eqn:Es; try discriminate.
    apply Split_two in Es as (-> & Ha & Hb). now repeat split.
  - apply Nat.eqb_neq in E.
    destruct (Split str ":") as [|a [|b [|? ?]]] eqn:Es; try (now split).
    simpl in Hl. lia.
Qed.

(** Stripping the prefix a second time changes nothing. *)
Theorem trimNSPrefix_idempotent :
  forall str : string, trimNSPrefix (trimNSPrefix str) = trimNSPrefix str.
Proof.
  intros str. pose proof (length_Split str ":") as Hl.
  unfold trimNSPrefix at 2 3.
  destruct (Split str ":") as [|a [|b [|? ?]]] eqn:Es;
    try (unfold trimNSPrefix; now rewrite Es).
  apply Split_two in Es as (_ & _ & Hb).
  unfold trimNSPrefix. now rewrite (Split_absent b ":" Hb).
Qed.

(** ** The table of built-in types *)

Lemma supportLang_range (lang : string) : 0 <= default 0 (supportLang !! lang) <= 5.
Proof.
  destruct (supportLang !! lang) as [i|] eqn:E; simpl; [|lia].
  apply elem_of_list_to_map_2 in E.
  repeat (apply elem_of_cons in E as [E|E]; [injection E as -> ->; lia|]).
  inversion E.
Qed.

Lemma BuildInTypes_row (value : string) (row : list string) :
  BuildInTypes !! value = Some row ->
  length row = 6%nat
  /\ Forall (fun t => t <> "") row
  /\ exists t, row !! 5%nat = Some t /\ isBuiltInCSharpType t = true.
Proof.
  intros E. apply elem_of_list_to_map_2 in E.
  assert (Hall :
    Forall (fun kv : string * list string =>
              length kv.2 = 6%nat /\ Forall (fun t => t <> "") kv.2
              /\ bool_decide
                   (is_Some (csharpBuildInType !! default "" (kv.2 !! 5%nat))) = true)
      BuildInTypes_rows).
  { repeat constructor; discriminate. }
  rewrite Forall_forall in Hall. destruct (Hall _ E) as (Hlen & Hne & Hcs).
  cbn [snd] in Hlen, Hne, Hcs. repeat split; [exact Hlen|exact Hne|].
  destruct row as [|? [|? [|? [|? [|? [|t [|? ?]]]]]]]; try discriminate.
  exists t. split; [reflexivity|exact Hcs].
Qed.

(** [getBuildInTypeByLang] never indexes a row out of its range, whatever the
    language is: it always returns.  It returns [ok] false, with the empty
    type, exactly for the names that are not in the table, and a type that
    is not empty for the others. *)
Theorem getBuildInTypeByLang_returns :
  forall value lang : string,
    exists buildType ok,
      getBuildInTypeByLang value lang = Some (buildType, ok)
      /\ (ok = false <-> BuildInTypes !! value = None)
      /\ (buildType = "" <-> ok = false).
Proof.
  intros value lang. unfold getBuildInTypeByLang.
  pose proof (supportLang_range lang) as Hi.
  destruct (BuildInTypes !! value) as [row|] eqn:E.
  - destruct (BuildInTypes_row value row E) as (Hlen & Hne & _).
    rewrite Hlen.
    replace ((0 <=? default 0 (supportLang !! lang))
             && (default 0 (supportLang !! lang) <? Z.of_nat 6)) with true
      by (symmetry; apply andb_true_iff; split; [apply Z.leb_le|apply Z.ltb_lt]; lia).
    destruct (row !! Z.to_nat (default 0 (supportLang !! lang))) as [t|] eqn:Et.
    + exists t, true. split; [reflexivity|].
      rewrite Forall_forall in Hne.
      assert (t <> "") by (apply Hne; eapply list_elem_of_lookup_2; exact Et).
      split; split; congruence.
    + apply lookup_ge_None in Et. lia.
  - exists "", false. now repeat split.
Qed.

(** A language that is not one of the six is read as Go: the lookup of its
    column gives 0, the column of Go. *)
Theorem unknown_language_is_read_as_Go :
  forall value lang : string,
    supportLang !! lang = None ->
    getBuildInTypeByLang value lang = getBuildInTypeByLang value "Go".
Proof.
  intros value lang E. unfold getBuildInTypeByLang. now rewrite E.
Qed.

Lemma unknown_language_is_read_as_Go_witness :
  getBuildInTypeByLang "dateTime" "csharp" = Some ("string", true).
Proof.
  rewrite (unknown_language_is_read_as_Go "dateTime" "csharp");
    [|vm_compute; reflexivity].
  vm_compute. reflexivity.
Defined.

(** The type that the table gives for C#, for every name of the table, is
    a key of [csharpBuildInType], and [genCSharpFieldType] returns it as it
    is.  The two tables agree; the backend itself does not read
    [BuildInTypes]. *)
Theorem CSharp_column_is_built_in :
  forall (T : string -> string) (value buildType : string) (ok : bool),
    getBuildInTypeByLang value "CSharp" = Some (buildType, ok) ->
    ok = true ->
    isBuiltInCSharpType buildType = true /\ genCSharpFieldType T buildType = buildType.
Proof.
  intros T value buildType ok H Hok. subst ok. unfold getBuildInTypeByLang in H.
  destruct (BuildInTypes !! value) as [row|] eqn:E; [|discriminate].
  destruct (BuildInTypes_row value row E) as (Hlen & _ & t & Ht & HB).
  rewrite Hlen in H.
  change (default 0 (supportLang !! "CSharp")) with 5 in H.
  change (Z.to_nat 5) with 5%nat in H. rewrite Ht in H. simpl in H.
  injection H as <-. split; [exact HB|].
  unfold genCSharpFieldType. unfold isBuiltInCSharpType in HB. now rewrite HB.
Qed.

Lemma CSharp_column_is_built_in_witness :
  isBuiltInCSharpType "byte[]" = true
  /\ genCSharpFieldType (fun s => s) "byte[]" = "byte[]".
Proof.
  apply (CSharp_column_is_built_in (fun s => s) "base64Binary" "byte[]" true);
    vm_compute; reflexivity.
Defined.

(** ** The bytes of an identifier *)

Lemma allBytes_append (P : ascii -> bool) (a b : string) :
  allBytes P (a +:+ b) = allBytes P a && allBytes P b.
Proof.
  induction a as [|x a IH]; [reflexivity|].
  rewrite append_cons. simpl. now rewrite IH, andb_assoc.
Qed.

Lemma allBytes_flatten (P : ascii -> bool) (l : list string) :
  Forall (fun p => allBytes P p = true) l -> allBytes P (flatten l) = true.
Proof.
  induction 1 as [|p l Hp _ IH]; [reflexivity|].
  simpl. now rewrite allBytes_append, Hp, IH.
Qed.

Lemma isASCII_allBytes (s : string) : isASCII s = allBytes isASCIIByte s.
Proof. induction s as [|x s IH]; [reflexivity|]. simpl. now rewrite IH. Qed.

Lemma countByte_isNot (c : ascii) (s : string) :
  countByte c s = O <-> allBytes (isNot c) s = true.
Proof.
  induction s as [|x s IH]; [now split|]. simpl. unfold isNot at 1.
  destruct (Ascii.eqb x c); simpl; [split; [lia|discriminate]|exact IH].
Qed.

Lemma allBytes_Split (P : ascii -> bool) (s : string) (sep : ascii) :
  allBytes P s = true -> Forall (fun p => allBytes P p = true) (Split s sep).
Proof.
  induction s as [|x s IH]; intros H; [now repeat constructor|].
  simpl in H. apply andb_prop in H as [Hx Hs]. specialize (IH Hs). simpl.
  destruct (Ascii.eqb x sep); [now constructor|].
  destruct (Split s sep) as [|p ps]; [now repeat constructor; simpl; rewrite Hx|].
  apply Forall_cons in IH as [Hp Hps]. constructor; [|exact Hps].
  simpl. now rewrite Hx, Hp.
Qed.

Lemma Split_pieces_lack_sep (s : string) (sep : ascii) :
  Forall (fun p => allBytes (isNot sep) p = true) (Split s sep).
Proof.
  induction s as [|x s IH]; [now repeat constructor|]. simpl.
  destruct (Ascii.eqb x sep) eqn:E; [now constructor|].
  destruct (Split s sep) as [|p ps]; [now repeat constructor; simpl; unfold isNot; rewrite E|].
  apply Forall_cons in IH as [Hp Hps]. constructor; [|exact Hps].
  simpl. unfold isNot at 1. now rewrite E, Hp.
Qed.

Lemma ToUpperASCII_code (x : ascii) :
  N_of_ascii (ToUpperASCII x)
  = (if ((97 <=? N_of_ascii x) && (N_of_ascii x <=? 122))%N
     then N_of_ascii x - 32 else N_of_ascii x)%N.
Proof.
  unfold ToUpperASCII.
  destruct ((97 <=? N_of_ascii x) && (N_of_ascii x <=? 122))%N eqn:E; [|reflexivity].
  apply andb_prop in E as [_ E]. apply N.leb_le in E.
  apply N_ascii_embedding. lia.
Qed.

Lemma ToUpperASCII_isASCIIByte (x : ascii) :
  isASCIIByte x = true -> isASCIIByte (ToUpperASCII x) = true.
Proof.
  unfold isASCIIByte. rewrite ToUpperASCII_code. intros H. apply N.ltb_lt in H.
  apply N.ltb_lt. destruct ((97 <=? N_of_ascii x) && (N_of_ascii x <=? 122))%N; lia.
Qed.

Lemma ToUpperASCII_isNot (c x : ascii) :
  isUpperASCII c = false -> isNot c x = true -> isNot c (ToUpperASCII x) = true.
Proof.
  unfold isNot. intros Hc Hx. apply negb_true_iff. apply negb_true_iff in Hx.
  apply Ascii.eqb_neq. apply Ascii.eqb_neq in Hx. intros Heq.
  assert (Hcode := ToUpperASCII_code x). rewrite Heq in Hcode.
  destruct ((97 <=? N_of_ascii x) && (N_of_ascii x <=? 122))%N eqn:E.
  - apply andb_prop in E as [E1 E2]. apply N.leb_le in E1, E2.
    unfold isUpperASCII in Hc. rewrite Hcode in Hc.
    apply andb_false_iff in Hc as [Hc|Hc]; apply N.leb_gt in Hc; lia.
  - apply Hx. rewrite <- (ascii_N_embedding x), <- Hcode. apply ascii_N_embedding.
Qed.

Lemma ToTitle_allBytes (T : string -> string) (P : ascii -> bool) (s : string) :
  (forall x, P x = true -> P (ToUpperASCII x) = true) ->
  isASCII s = true -> allBytes P s = true -> allBytes P (ToTitle T s) = true.
Proof.
  intros HP Ha Hs. unfold ToTitle. rewrite Ha.
  destruct s as [|x s]; [reflexivity|]. simpl in *.
  apply andb_prop in Hs as [Hx Hs]. now rewrite (HP x Hx), Hs.
Qed.

(** The text that one of the two loops of [genCSharpFieldName] makes of a
    string: its pieces between the separators, each with its first letter in
    upper case, concatenated. *)
Lemma pieces_allBytes (T : string -> string) (P : ascii -> bool) (s : string) (sep : ascii) :
  (forall x, P x = true -> P (ToUpperASCII x) = true) ->
  isASCII s = true -> allBytes P s = true ->
  allBytes P
    (fold_left (fun fieldName str => fieldName +:+ MakeFirstUpperCase T str) (Split s sep) "")
  = true.
Proof.
  intros HP Ha Hs. rewrite fold_left_append. apply allBytes_flatten.
  rewrite isASCII_allBytes in Ha.
  pose proof (allBytes_Split P s sep Hs) as HPs.
  pose proof (allBytes_Split isASCIIByte s sep Ha) as HAs.
  induction (Split s sep) as [|p ps IH]; [constructor|].
  apply Forall_cons in HPs as [Hp HPs]. apply Forall_cons in HAs as [Hap HAs].
  simpl map. constructor; [|now apply IH].
  apply ToTitle_allBytes; [exact HP|now rewrite isASCII_allBytes|exact Hp].
Qed.

Lemma pieces_lack_sep (T : string -> string) (s : string) (sep : ascii) :
  isUpperASCII sep = false -> isASCII s = true ->
  allBytes (isNot sep)
    (fold_left (fun fieldName str => fieldName +:+ MakeFirstUpperCase T str) (Split s sep) "")
  = true.
Proof.
  intros Hsep Ha. rewrite fold_left_append. apply allBytes_flatten.
  rewrite isASCII_allBytes in Ha.
  pose proof (Split_pieces_lack_sep s sep) as HPs.
  pose proof (allBytes_Split isASCIIByte s sep Ha) as HAs.
  induction (Split s sep) as [|p ps IH]; [constructor|].
  apply Forall_cons in HPs as [Hp HPs]. apply Forall_cons in HAs as [Hap HAs].
  simpl map. constructor; [|now apply IH].
  apply ToTitle_allBytes;
    [intros x; now apply ToUpperASCII_isNot|now rewrite isASCII_allBytes|exact Hp].
Qed.

Lemma ReplaceAll_remove_allBytes (P : ascii -> bool) (s : string) (old : ascii) :
  allBytes P s = true -> allBytes P (ReplaceAll s old "") = true.
Proof.
  induction s as [|x s IH]; [reflexivity|]. simpl. intros H.
  apply andb_prop in H as [Hx Hs].
  destruct (Ascii.eqb x old); [now apply IH|]. simpl. now rewrite Hx, IH.
Qed.

Lemma ReplaceAll_remove_lacks (s : string) (old : ascii) :
  allBytes (isNot old) (ReplaceAll s old "") = true.
Proof.
  induction s as [|x s IH]; [reflexivity|]. simpl.
  destruct (Ascii.eqb x old) eqn:E; [exact IH|]. simpl. unfold isNot at 1.
  now rewrite E, IH.
Qed.

(** The identifier made of an ASCII name holds no colon, no dot and no
    hyphen, and is ASCII: the separators of XSD names never reach the C#
    source. *)
Theorem normalized_has_no_separator :
  forall (T : string -> string) (name : string),
    isASCII name = true ->
    countByte ":" (normalized T name) = O
    /\ countByte "." (normalized T name) = O
    /\ countByte "-" (normalized T name) = O
    /\ isASCII (normalized T name) = true.
Proof.
  intros T name Ha.
  set (one := fold_left (fun fieldName str => fieldName +:+ MakeFirstUpperCase T str)
                (Split name ":") "").
  set (two := fold_left (fun fieldName str => fieldName +:+ MakeFirstUpperCase T str)
                (Split one ".") "").
  change (normalized T name) with (ReplaceAll two "-" "").
  assert (Ha1 : isASCII one = true).
  { rewrite isASCII_allBytes. apply pieces_allBytes;
      [apply ToUpperASCII_isASCIIByte|exact Ha|now rewrite <- isASCII_allBytes]. }
  assert (Hc1 : allBytes (isNot ":") one = true) by now apply pieces_lack_sep.
  assert (Ha2 : isASCII two = true).
  { rewrite isASCII_allBytes. apply pieces_allBytes;
      [apply ToUpperASCII_isASCIIByte|exact Ha1|now rewrite <- isASCII_allBytes]. }
  assert (Hc2 : allBytes (isNot ":") two = true).
  { apply pieces_allBytes; [intros x; now apply ToUpperASCII_isNot|exact Ha1|exact Hc1]. }
  assert (Hd2 : allBytes (isNot ".") two = true) by now apply pieces_lack_sep.
  repeat split.
  - apply countByte_isNot. now apply ReplaceAll_remove_allBytes.
  - apply countByte_isNot. now apply ReplaceAll_remove_allBytes.
  - apply countByte_isNot. apply ReplaceAll_remove_lacks.
  - rewrite isASCII_allBytes. apply ReplaceAll_remove_allBytes.
    now rewrite <- isASCII_allBytes.
Qed.

Lemma normalized_has_no_separator_witness :
  countByte ":" (normalized (fun s => s) "tns:purchase-order.ship-to") = O
  /\ normalized (fun s => s) "tns:purchase-order.ship-to" = "TnsPurchaseorderShipto".
Proof.
  split.
  - apply (normalized_has_no_separator (fun s => s) "tns:purchase-order.ship-to").
    reflexivity.
  - vm_compute. reflexivity.
Defined.

(** ** ToSnakeCase *)

Lemma string_length_ind (Q : string -> Prop) :
  (forall s, (forall t, (String.length t < String.length s)%nat -> Q t) -> Q s) ->
  forall s, Q s.
Proof.
  intros H s. remember (String.length s) as n eqn:Hn. revert s Hn.
  induction n as [n IH] using lt_wf_ind. intros s ->.
  apply H. intros t Ht. now apply (IH (String.length t)).
Qed.

Lemma matchFirstCap_three (a b c : ascii) (r : string) :
  matchFirstCap_ReplaceAllString (String a (String b (String c r)))
  = if isUpperASCII a && isUpperASCII b && isLowerASCII c
    then String a (String "_" (String b (String c (matchFirstCap_ReplaceAllString r))))
    else String a (matchFirstCap_ReplaceAllString (String b (String c r))).
Proof. reflexivity. Qed.

Lemma matchAllCap_two (a b : ascii) (r : string) :
  matchAllCap_ReplaceAllString (String a (String b r))
  = if (isLowerASCII a || isDigitASCII a) && isUpperASCII b
    then String a (String "_" (String b (matchAllCap_ReplaceAllString r)))
    else String a (matchAllCap_ReplaceAllString (String b r)).
Proof. reflexivity. Qed.

Lemma matchFirstCap_allBytes (P : ascii -> bool) (s : string) :
  P "_"%char = true -> allBytes P s = true ->
  allBytes P (matchFirstCap_ReplaceAllString s) = true.
Proof.
  intros HP. induction s as [s IH] using string_length_ind. intros Hs.
  destruct s as [|a [|b [|c r]]]; try exact Hs.
  rewrite matchFirstCap_three.
  assert (Ht : allBytes P (matchFirstCap_ReplaceAllString (String b (String c r))) = true).
  { apply IH; [simpl; lia|]. simpl in Hs. now apply andb_prop in Hs as [_ Hs]. }
  assert (Hr : allBytes P (matchFirstCap_ReplaceAllString r) = true).
  { apply IH; [simpl; lia|]. simpl in Hs.
    apply andb_prop in Hs as [_ Hs]. apply andb_prop in Hs as [_ Hs].
    now apply andb_prop in Hs as [_ Hs]. }
  simpl in Hs. apply andb_prop in Hs as [Ha Hs]. apply andb_prop in Hs as [Hb Hs].
  apply andb_prop in Hs as [Hc _].
  destruct (isUpperASCII a && isUpperASCII b && isLowerASCII c).
  - cbn [allBytes]. now rewrite Ha, HP, Hb, Hc, Hr.
  - cbn [allBytes]. now rewrite Ha, Ht.
Qed.

Lemma matchAllCap_allBytes (P : ascii -> bool) (s : string) :
  P "_"%char = true -> allBytes P s = true ->
  allBytes P (matchAllCap_ReplaceAllString s) = true.
Proof.
  intros HP. induction s as [s IH] using string_length_ind. intros Hs.
  destruct s as [|a [|b r]]; try exact Hs.
  rewrite matchAllCap_two.
  assert (Ht : allBytes P (matchAllCap_ReplaceAllString (String b r)) = true).
  { apply IH; [simpl; lia|]. simpl in Hs. now apply andb_prop in Hs as [_ Hs]. }
  assert (Hr : allBytes P (matchAllCap_ReplaceAllString r) = true).
  { apply IH; [simpl; lia|]. simpl in Hs.
    apply andb_prop in Hs as [_ Hs]. now apply andb_prop in Hs as [_ Hs]. }
  simpl in Hs. apply andb_prop in Hs as [Ha Hs]. apply andb_prop in Hs as [Hb _].
  destruct ((isLowerASCII a || isDigitASCII a) && isUpperASCII b).
  - cbn [allBytes]. now rewrite Ha, HP, Hb, Hr.
  - cbn [allBytes]. now rewrite Ha, Ht.
Qed.

Lemma matchFirstCap_notUpper (s : string) :
  allBytes notUpper s = true -> matchFirstCap_ReplaceAllString s = s.
Proof.
  induction s as [|a t IH]; [reflexivity|]. intros H. simpl in H.
  apply andb_prop in H as [Ha Ht]. specialize (IH Ht).
  unfold notUpper in Ha. apply negb_true_iff in Ha.
  destruct t as [|b [|c r]]; try reflexivity.
  rewrite matchFirstCap_three, Ha. cbn [andb]. now rewrite IH.
Qed.

Lemma matchAllCap_notUpper (s : string) :
  allBytes notUpper s = true -> matchAllCap_ReplaceAllString s = s.
Proof.
  induction s as [|a t IH]; [reflexivity|]. intros H. simpl in H.
  apply andb_prop in H as [Ha Ht]. specialize (IH Ht).
  destruct t as [|b r]; [reflexivity|].
  rewrite matchAllCap_two.
  simpl in Ht. apply andb_prop in Ht as [Hb _].
  unfold notUpper in Hb. apply negb_true_iff in Hb.
  rewrite Hb, andb_false_r. now rewrite IH.
Qed.

Lemma ReplaceAll_byte_allBytes (P : ascii -> bool) (s : string) (old new : ascii) :
  P new = true -> allBytes P s = true -> allBytes P (ReplaceAll s old (String new "")) = true.
Proof.
  intros HP. induction s as [|x s IH]; [reflexivity|]. simpl. intros H.
  apply andb_prop in H as [Hx Hs].
  destruct (Ascii.eqb x old).
  - rewrite append_cons. simpl. change ("" +:+ ?r) with r. now rewrite HP, IH.
  - simpl. now rewrite Hx, IH.
Qed.

Lemma ReplaceAll_byte_lacks (s : string) (old new : ascii) :
  Ascii.eqb new old = false ->
  allBytes (isNot old) (ReplaceAll s old (String new "")) = true.
Proof.
  intros Hn. induction s as [|x s IH]; [reflexivity|]. simpl.
  destruct (Ascii.eqb x old) eqn:E.
  - rewrite append_cons. simpl. unfold isNot at 1. now rewrite Hn.
  - simpl. unfold isNot at 1. now rewrite E, IH.
Qed.

Lemma ReplaceAll_absent (s : string) (old : ascii) (new : string) :
  allBytes (isNot old) s = true -> ReplaceAll s old new = s.
Proof.
  induction s as [|x s IH]; [reflexivity|]. simpl. unfold isNot at 1. intros H.
  apply andb_prop in H as [Hx Hs]. apply negb_true_iff in Hx.
  now rewrite Hx, IH.
Qed.

Lemma ToLowerASCII_code (x : ascii) :
  N_of_ascii (ToLowerASCII x)
  = (if isUpperASCII x then N_of_ascii x + 32 else N_of_ascii x)%N.
Proof.
  unfold ToLowerASCII. destruct (isUpperASCII x) eqn:E; [|reflexivity].
  unfold isUpperASCII in E. apply andb_prop in E as [_ E]. apply N.leb_le in E.
  apply N_ascii_embedding. lia.
Qed.

Lemma mapASCII_ToLower (s : string) :
  isASCII s = true ->
  isASCII (mapASCII ToLowerASCII s) = true
  /\ allBytes notUpper (mapASCII ToLowerASCII s) = true
  /\ (allBytes (isNot "-") s = true ->
      allBytes (isNot "-") (mapASCII ToLowerASCII s) = true).
Proof.
  induction s as [|x s IH]; [now repeat split|]. simpl. intros H.
  apply andb_prop in H as [Hx Hs]. destruct (IH Hs) as (IH1 & IH2 & IH3).
  assert (Hcode := ToLowerASCII_code x).
  unfold isASCIIByte in Hx |- *. apply N.ltb_lt in Hx.
  repeat split.
  - rewrite IH1, andb_true_r. apply N.ltb_lt. rewrite Hcode.
    destruct (isUpperASCII x) eqn:E; [|lia].
    unfold isUpperASCII in E. apply andb_prop in E as [_ E]. apply N.leb_le in E. lia.
  - rewrite IH2, andb_true_r. unfold notUpper, isUpperASCII at 1. rewrite Hcode.
    apply negb_true_iff.
    destruct (isUpperASCII x) eqn:E.
    + unfold isUpperASCII in E. apply andb_prop in E as [E1 E2].
      apply N.leb_le in E1, E2. apply andb_false_iff. right. apply N.leb_gt. lia.
    + exact E.
  - intros Hm. apply andb_prop in Hm as [Hm1 Hm2]. rewrite (IH3 Hm2), andb_true_r.
    unfold isNot in *. apply negb_true_iff. apply negb_true_iff in Hm1.
    apply Ascii.eqb_neq. apply Ascii.eqb_neq in Hm1. intros Heq.
    rewrite Heq in Hcode. destruct (isUpperASCII x) eqn:E.
    + unfold isUpperASCII in E. apply andb_prop in E as [E1 E2].
      apply N.leb_le in E1, E2. change (N_of_ascii "-") with 45%N in Hcode. lia.
    + apply Hm1. rewrite <- (ascii_N_embedding x), <- Hcode. reflexivity.
Qed.

Lemma mapASCII_ToLower_notUpper (s : string) :
  allBytes notUpper s = true -> mapASCII ToLowerASCII s = s.
Proof.
  induction s as [|x s IH]; [reflexivity|]. simpl. intros H.
  apply andb_prop in H as [Hx Hs]. unfold notUpper in Hx. apply negb_true_iff in Hx.
  assert (Hl : ToLowerASCII x = x) by (unfold ToLowerASCII; now rewrite Hx).
  now rewrite Hl, IH.
Qed.

(** On an ASCII name the result of [ToSnakeCase] is ASCII, holds no capital
    letter and no hyphen, and is left as it is by [ToSnakeCase]: converting
    a name twice gives what converting it once gives. *)
Theorem ToSnakeCase_of_ASCII :
  forall (ToLowerWide : string -> string) (input : string),
    isASCII input = true ->
    let output := ToSnakeCase ToLowerWide input in
    isASCII output = true
    /\ allBytes notUpper output = true
    /\ countByte "-" output = O
    /\ ToSnakeCase ToLowerWide output = output.
Proof.
  intros L input Ha output.
  set (s1 := matchFirstCap_ReplaceAllString input).
  set (s2 := matchAllCap_ReplaceAllString s1).
  set (s3 := ReplaceAll s2 "-" "_").
  assert (H3 : isASCII s3 = true).
  { rewrite isASCII_allBytes in *. apply ReplaceAll_byte_allBytes; [reflexivity|].
    apply matchAllCap_allBytes; [reflexivity|].
    now apply matchFirstCap_allBytes. }
  assert (Hm : allBytes (isNot "-") s3 = true) by now apply ReplaceAll_byte_lacks.
  assert (Hout : output = mapASCII ToLowerASCII s3).
  { subst output. unfold ToSnakeCase. fold s1. fold s2. fold s3.
    unfold strings_ToLower. now rewrite H3. }
  destruct (mapASCII_ToLower s3 H3) as (Ho1 & Ho2 & Ho3). specialize (Ho3 Hm).
  rewrite <- Hout in Ho1, Ho2, Ho3.
  repeat split; [exact Ho1|exact Ho2|now apply countByte_isNot|].
  unfold ToSnakeCase.
  rewrite (matchFirstCap_notUpper output Ho2), (matchAllCap_notUpper output Ho2).
  rewrite (ReplaceAll_absent output "-" "_" Ho3).
  unfold strings_ToLower. rewrite Ho1. now apply mapASCII_ToLower_notUpper.
Qed.

Lemma ToSnakeCase_of_ASCII_witness :
  ToSnakeCase (fun s => s) "HTTPServerName-v2Beta" = "http_server_name_v2_beta"
  /\ ToSnakeCase (fun s => s) (ToSnakeCase (fun s => s) "HTTPServerName-v2Beta")
     = ToSnakeCase (fun s => s) "HTTPServerName-v2Beta".
Proof.
  split; [vm_compute; reflexivity|].
  apply (ToSnakeCase_of_ASCII (fun s => s) "HTTPServerName-v2Beta"). reflexivity.
Defined.

(** ** Documentation comments *)

Lemma Split_nonempty (s : string) (sep : ascii) : Split s sep <> [].
Proof.
  intros H. pose proof (length_Split s sep) as Hl. rewrite H in Hl. discriminate.
Qed.

Lemma Join_cons_String (x : ascii) (p : string) (rest : list string) (sep : string) :
  Join (String x p :: rest) sep = String x (Join (p :: rest) sep).
Proof. destruct rest; reflexivity. Qed.

Lemma Replacer_lines (prefix doc : string) :
  Replacer newline (String newline (prefix +:+ " ")) tab "" doc
  = Join (map (fun line => ReplaceAll line tab "") (Split doc newline))
      (String newline (prefix +:+ " ")).
Proof.
  induction doc as [|x doc IH]; [reflexivity|].
  cbn [Replacer Split].
  pose proof (Split_nonempty doc newline) as Hne.
  destruct (Ascii.eqb x newline) eqn:En.
  - rewrite IH. cbn [map]. destruct (Split doc newline) as [|p ps]; [contradiction|].
    reflexivity.
  - destruct (Split doc newline) as [|p ps]; [contradiction|].
    cbn [map] in *. cbn [ReplaceAll].
    destruct (Ascii.eqb x tab).
    + rewrite IH. reflexivity.
    + rewrite IH. now rewrite Join_cons_String.
Qed.

(** The comment of a construct with a documentation text holds the lines of
    the text, each after the comment prefix: the text is cut at its line
    breaks, every tab is removed, and the prefix is put before every line,
    so that no line of the documentation stands outside the comment. *)
Theorem genFieldComment_prefixes_every_line :
  forall name doc prefix : string,
    doc <> "" ->
    genFieldComment name doc prefix
    = lit "\n" +:+ prefix +:+ " " +:+ name +:+ " is "
      +:+ Join (map (fun line => ReplaceAll line tab "") (Split doc newline))
            (lit "\n" +:+ prefix +:+ " ")
      +:+ lit "\n".
Proof.
  intros name doc prefix Hdoc. unfold genFieldComment.
  apply String.eqb_neq in Hdoc. rewrite Hdoc.
  change (Sprintf (lit "\n%s ") [Str prefix]) with (String newline (prefix +:+ " ")).
  rewrite Replacer_lines. reflexivity.
Qed.

Lemma genFieldComment_prefixes_every_line_witness :
  genFieldComment "Order" (lit "An order.\n\tIts items.\n\n(end)") (lit "\t//")
  = lit "\n\t// Order is An order.\n\t// Its items.\n\t// \n\t// (end)\n".
Proof.
  etransitivity;
    [apply genFieldComment_prefixes_every_line; discriminate|].
  vm_compute. reflexivity.
Defined.
